(** * MAX7219 32x8 dot-matrix driver (light.h): shallow embedding

    The driver keeps its state in file-level globals ([fb], [cur_light_x],
    [cur_light_y]) and talks to the display through [write(2)] on the SPI
    file descriptor.  The embedding threads one [state] record through a
    small state monad; the result of each [write] call is supplied by an
    oracle, so every statement below holds for an arbitrary bus.

    [spi_init] (opening and configuring the device node) and
    [finish_lights] are not part of the embedding: none of the properties
    below depends on them. *)

From Stdlib Require Import ZArith Lia.
From stdpp Require Import base numbers list strings.

Local Open Scope Z_scope.

(** ** Constants of light.h *)

Definition NUM_DEVICES : nat := 4.
Definition WIDTH : Z := 32.
Definition HEIGHT : Z := 8.

Definition REG_NOOP : Z := 0x00.
Definition REG_DIGIT0 : Z := 0x01.
Definition REG_DECODE : Z := 0x09.
Definition REG_INTENSITY : Z := 0x0A.
Definition REG_SCANLIMIT : Z := 0x0B.
Definition REG_SHUTDOWN : Z := 0x0C.
Definition REG_DISPLAYTEST : Z := 0x0F.

(** ** Machine integers

    [uint8_t] and [uint32_t] values are integers in [0, 2^8) and [0, 2^32);
    a conversion to one of these types reduces modulo the width. *)

Definition to_uint8 (v : Z) : Z := v mod 2 ^ 8.
Definition to_uint32 (v : Z) : Z := v mod 2 ^ 32.

(** [~m] on a [uint32_t]. *)
Definition not32 (m : Z) : Z := to_uint32 (Z.lnot m).

Definition INT_MAX : Z := 2 ^ 31 - 1.

(** ** Program state

    [spi_log] records the buffers handed to [write(spi_fd, ...)], oldest
    first; [stderr_log] records the [perror] calls.  The other three fields
    are the globals of light.h. *)

Record state : Type := mkState {
  spi_log : list (list Z);
  stderr_log : list string;
  fb : list Z;
  cur_light_x : Z;
  cur_light_y : Z
}.

Definition with_spi_log (l : list (list Z)) (s : state) : state :=
  mkState l (stderr_log s) (fb s) (cur_light_x s) (cur_light_y s).
Definition with_stderr_log (e : list string) (s : state) : state :=
  mkState (spi_log s) e (fb s) (cur_light_x s) (cur_light_y s).
Definition with_fb (f : list Z) (s : state) : state :=
  mkState (spi_log s) (stderr_log s) f (cur_light_x s) (cur_light_y s).
Definition with_x (x : Z) (s : state) : state :=
  mkState (spi_log s) (stderr_log s) (fb s) x (cur_light_y s).
Definition with_y (y : Z) (s : state) : state :=
  mkState (spi_log s) (stderr_log s) (fb s) (cur_light_x s) y.

(** ** The state monad of the driver *)

Definition M (A : Type) : Type := state -> A * state.

Definition ret {A : Type} (a : A) : M A := fun s => (a, s).
Definition bind {A B : Type} (m : M A) (k : A -> M B) : M B :=
  fun s => let (a, s') := m s in k a s'.
Definition gets {A : Type} (f : state -> A) : M A := fun s => (f s, s).
Definition modify (f : state -> state) : M unit := fun s => (tt, f s).

Notation "x <- m ;; k" := (bind m (fun x => k))
  (at level 20, m at level 99, k at level 200, right associativity).
Notation "m ;; k" := (bind m (fun _ => k))
  (at level 100, k at level 200, right associativity).

(** A [for] loop whose body may make the enclosing function [return -1]:
    [for (i ...) { if (body(i) < 0) return -1; } return 0;]. *)
Fixpoint for_each {A : Type} (body : A -> M Z) (l : list A) : M Z :=
  match l with
  | [] => ret 0
  | i :: l' =>
      r <- body i ;;
      if r <? 0 then ret (-1) else for_each body l'
  end.

(** The indices [0 .. n-1] of a counting loop, as C [int]s. *)
Definition upto (n : nat) : list nat := seq 0 n.

(** ** Framebuffer (no bus access) *)

(** [fb_clear]: [for (y...) fb[y] = 0;] *)
Definition fb_clear : M unit :=
  modify (fun s =>
    with_fb (fold_left (fun f y => <[y := 0]> f) (upto (Z.to_nat HEIGHT)) (fb s)) s).

(** [fb_set_pixel(x, y, on)] *)
Definition fb_set_pixel (x y on : Z) : M unit :=
  if (x <? 0) || (x >=? WIDTH) || (y <? 0) || (y >=? HEIGHT) then ret tt
  else
    let mask := to_uint32 (Z.shiftl 1 x) in
    modify (fun s =>
      let row := fb s !!! Z.to_nat y in
      if on =? 0
      then with_fb (<[Z.to_nat y := Z.land row (not32 mask)]> (fb s)) s
      else with_fb (<[Z.to_nat y := Z.lor row mask]> (fb s)) s).

(** The inner two loops of [fb_flush]: the byte of device [d] for a row
    value, and the [dev_bytes] array of a row. *)
Definition dev_byte (row : Z) (d : nat) : Z :=
  fold_left
    (fun b bit =>
       let x := Z.of_nat d * 8 + Z.of_nat bit in
       let on := Z.land (Z.shiftr row x) 1 in
       Z.lor b (to_uint8 (if on =? 0 then 0 else Z.shiftl 1 (Z.of_nat bit))))
    (upto 8) 0.

Definition dev_bytes (row : Z) : list Z :=
  fold_left (fun a d => <[d := dev_byte row d]> a) (upto NUM_DEVICES) [0; 0; 0; 0].

(** ** Register protocol *)

(** [sizeof(tx)] for [uint8_t tx[NUM_DEVICES * 2]]. *)
Definition sizeof_tx : Z := Z.of_nat NUM_DEVICES * 2.

(** The contents of a local [tx] array before the loop fills it.  Both
    loops overwrite all of its cells (see [broadcast_tx_any] and
    [send_row_tx_any]), so the choice is immaterial. *)
Definition tx_uninit : list Z := replicate (NUM_DEVICES * 2) 0.

(** The filling loop of [max7219_broadcast]. *)
Definition broadcast_tx (tx0 : list Z) (reg data : Z) : list Z :=
  fold_left
    (fun tx i => <[(i * 2 + 1)%nat := data]> (<[(i * 2 + 0)%nat := reg]> tx))
    (upto NUM_DEVICES) tx0.

(** The filling loop of [max7219_send_row]. *)
Definition send_row_tx (tx0 : list Z) (digit_1to8 : Z) (dev_data : list Z) : list Z :=
  fold_left
    (fun tx d =>
       let chain_index := ((NUM_DEVICES - 1) - d)%nat in
       <[(chain_index * 2 + 1)%nat := dev_data !!! d]>
         (<[(chain_index * 2 + 0)%nat := to_uint8 digit_1to8]> tx))
    (upto NUM_DEVICES) tx0.

(** The bus: [spi_reply log tx] is what [write(spi_fd, tx, sizeof(tx))]
    returns when the buffers in [log] were written before. *)
Definition bus : Type := list (list Z) -> list Z -> Z.

Section Driver.

Variable spi_reply : bus.

Definition spi_write (tx : list Z) : M Z :=
  fun s => (spi_reply (spi_log s) tx, with_spi_log (spi_log s ++ [tx]) s).

Definition perror (msg : string) : M unit :=
  modify (fun s => with_stderr_log (stderr_log s ++ [msg]) s).

Definition max7219_broadcast (reg data : Z) : M Z :=
  let tx := broadcast_tx tx_uninit reg data in
  n <- spi_write tx ;;
  if negb (n =? sizeof_tx) then perror "spi write" ;; ret (-1)
  else ret 0.

Definition max7219_send_row (digit_1to8 : Z) (dev_data : list Z) : M Z :=
  if (digit_1to8 <? 1) || (digit_1to8 >? 8) then ret (-1)
  else
    let tx := send_row_tx tx_uninit digit_1to8 dev_data in
    n <- spi_write tx ;;
    if negb (n =? sizeof_tx) then perror "spi write" ;; ret (-1)
    else ret 0.

(** [if (call < 0) return -1; rest] *)
Definition orfail (call : M Z) (rest : M Z) : M Z :=
  r <- call ;; if r <? 0 then ret (-1) else rest.

Definition max7219_init (intensity_0to15 : Z) : M Z :=
  let intensity_0to15 := if intensity_0to15 >? 15 then 15 else intensity_0to15 in
  orfail (max7219_broadcast REG_DISPLAYTEST 0x00) (
  orfail (max7219_broadcast REG_DECODE 0x00) (
  orfail (max7219_broadcast REG_SCANLIMIT 0x07) (
  orfail (max7219_broadcast REG_INTENSITY intensity_0to15) (
  orfail (max7219_broadcast REG_SHUTDOWN 0x01) (
  for_each
    (fun row => let zeros := [0; 0; 0; 0] in max7219_send_row row zeros)
    [1; 2; 3; 4; 5; 6; 7; 8]))))).

(** [fb_flush] *)
Definition fb_flush : M Z :=
  for_each
    (fun y =>
       row <- gets (fun s => fb s !!! y) ;;
       max7219_send_row (Z.of_nat y + 1) (dev_bytes row))
    (upto (Z.to_nat HEIGHT)).

(** The part of [next_light] after the cursor update: clear, light the
    pixel under the cursor, flush. *)
Definition show_cursor : M Z :=
  fb_clear ;;
  cx <- gets cur_light_x ;;
  cy <- gets cur_light_y ;;
  fb_set_pixel cx cy 1 ;;
  r <- fb_flush ;;
  if r <? 0 then ret 1 else ret 0.

(** [next_light]; [++] on the cursors is on C [int]s, and
    [main_loop_in_int_range] shows that the cursors stay far below
    [INT_MAX] throughout the loop of [main]. *)
Definition next_light : M Z :=
  modify (fun s => with_x (cur_light_x s + 1) s) ;;
  x <- gets cur_light_x ;;
  stop <- (if x >? HEIGHT then
             (* [cur_light_x == 0;] is evaluated and its value dropped *)
             _cmp <- gets (fun s => cur_light_x s =? 0) ;;
             modify (fun s => with_y (cur_light_y s + 1) s) ;;
             y <- gets cur_light_y ;;
             ret (y >? HEIGHT)
           else ret false) ;;
  if stop : bool then ret 1 else show_cursor.

(** The loop of [main] in light.c, [while (next_light() == 0) usleep(..);],
    run for at most [fuel] iterations.  The result is the number of
    [next_light] calls made when the loop exits within the fuel. *)
Fixpoint main_loop (fuel : nat) : M (option nat) :=
  match fuel with
  | O => ret None
  | S fuel' =>
      r <- next_light ;;
      if r =? 0 then
        k <- main_loop fuel' ;; ret (option_map S k)
      else ret (Some 1%nat)
  end.

(** [n] successive calls of [next_light], whatever they return. *)
Fixpoint calls (n : nat) (s : state) : state :=
  match n with
  | O => s
  | S n' => calls n' (snd (next_light s))
  end.

End Driver.

(** ** Reference frames

    What the protocol functions are expected to put on the wire, written
    as list literals. *)

(** A broadcast frame: the pair [(reg, data)] once per device. *)
Definition broadcast_frame (reg data : Z) : list Z :=
  concat (replicate NUM_DEVICES [reg; data]).

(** A row frame: device 3's pair first, device 0's pair last. *)
Definition row_frame (digit : Z) (dev_data : list Z) : list Z :=
  [digit; dev_data !!! 3%nat; digit; dev_data !!! 2%nat;
   digit; dev_data !!! 1%nat; digit; dev_data !!! 0%nat].

(** The frame [fb_flush] builds for framebuffer row [y]. *)
Definition flush_frame (f : list Z) (y : nat) : list Z :=
  row_frame (Z.of_nat y + 1) (dev_bytes (f !!! y)).

(** The frames of [max7219_init] for a clamped intensity [level]. *)
Definition init_frames (level : Z) : list (list Z) :=
  [ broadcast_frame REG_DISPLAYTEST 0;
    broadcast_frame REG_DECODE 0;
    broadcast_frame REG_SCANLIMIT 7;
    broadcast_frame REG_INTENSITY level;
    broadcast_frame REG_SHUTDOWN 1 ]
  ++ map (fun row => row_frame row (replicate NUM_DEVICES 0))
         [1; 2; 3; 4; 5; 6; 7; 8].

(** Writing a list of frames one after the other, stopping at the first one
    the bus does not take whole. *)
Fixpoint transmit (spi_reply : bus) (txs : list (list Z)) : M Z :=
  match txs with
  | [] => ret 0
  | tx :: rest =>
      n <- spi_write spi_reply tx ;;
      if negb (n =? sizeof_tx) then perror "spi write" ;; ret (-1)
      else transmit spi_reply rest
  end.

(** The bus takes a frame whole when [write] reports [sizeof(tx)] bytes. *)
Definition taken (spi_reply : bus) (log : list (list Z)) (tx : list Z) : Prop :=
  spi_reply log tx = sizeof_tx.

(** A bus that always takes the whole buffer, and one that takes whole
    buffers for the first [k] writes and three bytes of every later one. *)
Definition full_bus : bus := fun _ tx => Z.of_nat (length tx).
Definition short_from (k : nat) : bus :=
  fun log tx => if (length log <? k)%nat then Z.of_nat (length tx) else 3.

(** The globals as the C runtime initialises them, with nothing logged. *)
Definition power_on : state := mkState [] [] (replicate (Z.to_nat HEIGHT) 0) 0 0.

(** The same with pixel (0,0) lit. *)
Definition corner_lit : state := mkState [] [] [1; 0; 0; 0; 0; 0; 0; 0] 0 0.

(** An upper bound on the number of [next_light] calls the loop of [main]
    can still make: the calls that bring [cur_light_x] to [HEIGHT], then
    those that take [cur_light_y] past [HEIGHT]. *)
Definition remaining (s : state) : nat :=
  (Z.to_nat (HEIGHT - cur_light_x s)
   + Z.to_nat (Z.max 1 (HEIGHT + 1 - cur_light_y s)))%nat.

(** Framebuffer invariant: [HEIGHT] rows, each a [uint32_t]. *)
Definition fb_wf (f : list Z) : Prop :=
  length f = Z.to_nat HEIGHT /\ Forall (fun v => 0 <= v < 2 ^ 32) f.

(** ** The process around the driver

    [spi_init], [init_lights], [finish_lights] and [main] also call the
    operating system: [open], [ioctl], [close], [usleep].  A [process] is
    the driver state together with the global [spi_fd] and the log of these
    calls; what each call returns is supplied by a second oracle. *)

Definition SPI_DEV : string := "/dev/spidev0.0".
Definition SPI_HZ : Z := 10000000.
(** [SPI_MODE_0] of <linux/spi/spidev.h>. *)
Definition SPI_MODE_0 : Z := 0.

Inductive ioctl_request : Type :=
| SPI_IOC_WR_MODE
| SPI_IOC_WR_BITS_PER_WORD
| SPI_IOC_WR_MAX_SPEED_HZ.

(** [sys_ioctl fd req v] is [ioctl(fd, req, &x)] with [x == v]. *)
Inductive syscall : Type :=
| sys_open (path : string)
| sys_ioctl (fd : Z) (request : ioctl_request) (value : Z)
| sys_close (fd : Z)
| sys_usleep (usec : Z).

Record process : Type := mkProcess {
  core : state;
  spi_fd : Z;
  sys_log : list syscall
}.

(** [os_reply log c] is what the call [c] returns after the calls in [log]. *)
Definition os : Type := list syscall -> syscall -> Z.

Definition P (A : Type) : Type := process -> A * process.

Definition retP {A : Type} (a : A) : P A := fun p => (a, p).
Definition bindP {A B : Type} (m : P A) (k : A -> P B) : P B :=
  fun p => let (a, p') := m p in k a p'.

Notation "x <~ m ;; k" := (bindP m (fun x => k))
  (at level 20, m at level 99, k at level 200, right associativity).

(** A driver function run inside the process. *)
Definition lift {A : Type} (m : M A) : P A :=
  fun p => let (a, s') := m (core p) in (a, mkProcess s' (spi_fd p) (sys_log p)).

Definition set_spi_fd (fd : Z) : P unit :=
  fun p => (tt, mkProcess (core p) fd (sys_log p)).

Section Lifecycle.

Variable os_reply : os.
Variable spi_reply : bus.

Definition sys (c : syscall) : P Z :=
  fun p => (os_reply (sys_log p) c,
            mkProcess (core p) (spi_fd p) (sys_log p ++ [c])).

(** [spi_init] *)
Definition spi_init : P Z :=
  fd <~ sys (sys_open SPI_DEV) ;;
  _ <~ set_spi_fd fd ;;
  if fd <? 0 then
    _ <~ lift (perror "open spidev") ;; retP (-1)
  else
    let mode := SPI_MODE_0 in
    let bits := 8 in
    let speed := SPI_HZ in
    r <~ sys (sys_ioctl fd SPI_IOC_WR_MODE mode) ;;
    if r <? 0 then _ <~ lift (perror "SPI_IOC_WR_MODE") ;; retP (-1)
    else
      r <~ sys (sys_ioctl fd SPI_IOC_WR_BITS_PER_WORD bits) ;;
      if r <? 0 then _ <~ lift (perror "SPI_IOC_WR_BITS_PER_WORD") ;; retP (-1)
      else
        r <~ sys (sys_ioctl fd SPI_IOC_WR_MAX_SPEED_HZ speed) ;;
        if r <? 0 then _ <~ lift (perror "SPI_IOC_WR_MAX_SPEED_HZ") ;; retP (-1)
        else retP 0.

(** [init_lights] *)
Definition init_lights : P Z :=
  r <~ spi_init ;;
  if r <? 0 then retP 1
  else
    r <~ lift (max7219_init spi_reply 4) ;;
    if r <? 0 then retP 1
    else
      _ <~ lift fb_clear ;;
      retP 0.

(** [finish_lights]; the results of [fb_flush] and [close] are dropped. *)
Definition finish_lights : P unit :=
  _ <~ lift fb_clear ;;
  _ <~ lift (fb_flush spi_reply) ;;
  fd <~ (fun p => (spi_fd p, p)) ;;
  _ <~ sys (sys_close fd) ;;
  retP tt.

(** [while (next_light() == 0) usleep(30000);] with at most [fuel]
    evaluations of the condition; the result tells whether the loop was
    left. *)
Fixpoint main_while (fuel : nat) : P bool :=
  match fuel with
  | O => retP false
  | S fuel' =>
      r <~ lift (next_light spi_reply) ;;
      if r =? 0 then
        _ <~ sys (sys_usleep 30000) ;;
        main_while fuel'
      else retP true
  end.

(** [main] of light.c; [None] when the loop needs more than [fuel]
    iterations. *)
Definition main (fuel : nat) : P (option Z) :=
  r <~ init_lights ;;
  if negb (r =? 0) then retP (Some 1)
  else
    left_loop <~ main_while fuel ;;
    if left_loop : bool then
      _ <~ finish_lights ;;
      retP (Some 0)
    else retP None.

End Lifecycle.

(** The process as the C runtime starts it: [spi_fd = -1], cursors at 0,
    framebuffer zeroed. *)
Definition boot : process := mkProcess power_on (-1) [].

(** An operating system on which every call succeeds, [open] returning
    descriptor 3; and one on which the device node cannot be opened. *)
Definition good_os : os :=
  fun _ c => match c with sys_open _ => 3 | _ => 0 end.
Definition no_device_os : os :=
  fun _ c => match c with sys_open _ => -1 | _ => 0 end.

(** A frame as the wire wants it: [2*D] bytes. *)
Definition frame_ok (tx : list Z) : Prop :=
  length tx = (2 * NUM_DEVICES)%nat /\ Forall (fun b => 0 <= b < 256) tx.

(** Pixel [(x,y)] of a framebuffer. *)
Definition pixel (f : list Z) (x y : Z) : bool :=
  Z.testbit (f !!! Z.to_nat y) x.

(** The row whose device bytes are [b0 .. b3] (device 0 first). *)
Definition row_of_bytes (bs : list Z) : Z :=
  bs !!! 0%nat + 2 ^ 8 * bs !!! 1%nat + 2 ^ 16 * bs !!! 2%nat + 2 ^ 24 * bs !!! 3%nat.

(** * Properties *)

(** ** Bit-level facts *)

Lemma uint32_high_bits v n : 0 <= v < 2 ^ 32 -> 32 <= n -> Z.testbit v n = false.
Proof.
  intros Hv Hn. rewrite <- (Z.mod_small v (2 ^ 32)) by lia.
  apply Z.mod_pow2_bits_high. lia.
Qed.

Lemma pixel_mask x : 0 <= x < 32 -> to_uint32 (Z.shiftl 1 x) = 2 ^ x.
Proof.
  intros Hx. unfold to_uint32. rewrite Z.shiftl_1_l.
  apply Z.mod_small. split; [lia|]. apply Z.pow_lt_mono_r; lia.
Qed.

Lemma not32_testbit m n :
  0 <= n -> Z.testbit (not32 m) n = (n <? 32) && negb (Z.testbit m n).
Proof.
  intros Hn. unfold not32, to_uint32.
  destruct (Z.ltb_spec n 32) as [Hlt|Hge]; simpl.
  - rewrite Z.mod_pow2_bits_low by lia. apply Z.lnot_spec; lia.
  - apply Z.mod_pow2_bits_high; lia.
Qed.

(** Setting and then clearing bit [x] of a row leaves the row with bit [x]
    clear and every other bit as it was. *)
Lemma set_then_clear_bit v x :
  0 <= v < 2 ^ 32 -> 0 <= x < 32 ->
  Z.land (Z.lor v (2 ^ x)) (not32 (2 ^ x)) = Z.clearbit v x.
Proof.
  intros Hv Hx. apply Z.bits_inj'; intros n Hn.
  rewrite Z.land_spec, Z.lor_spec, not32_testbit, Z.clearbit_eqb by lia.
  rewrite Z.pow2_bits_eqb by lia.
  destruct (Z.eqb_spec x n) as [->|Hne]; simpl.
  - now rewrite !andb_false_r.
  - rewrite orb_false_r, !andb_true_r.
    destruct (Z.ltb_spec n 32); simpl.
    + now rewrite andb_true_r.
    + rewrite andb_false_r. symmetry. apply uint32_high_bits; lia.
Qed.

Lemma clearbit_clear v x : 0 <= x -> Z.testbit v x = false -> Z.clearbit v x = v.
Proof.
  intros Hx Hb. apply Z.bits_inj'; intros n Hn.
  rewrite Z.clearbit_eqb by lia.
  destruct (Z.eqb_spec x n) as [->|Hne]; simpl.
  - now rewrite Hb.
  - now rewrite andb_true_r.
Qed.

(** One step of the innermost loop of [fb_flush]: the term or-ed into the
    byte is bit [bit] exactly when column [x] of the row is lit. *)
Lemma flush_term_testbit row x bit n :
  0 <= x -> 0 <= bit < 8 -> 0 <= n ->
  Z.testbit
    (to_uint8 (if Z.land (Z.shiftr row x) 1 =? 0 then 0 else Z.shiftl 1 bit)) n
  = (bit =? n) && Z.testbit row x.
Proof.
  intros Hx Hbit Hn.
  assert (Hon : Z.land (Z.shiftr row x) 1 = Z.b2z (Z.testbit row x)).
  { change 1 with (Z.ones 1). rewrite Z.land_ones by lia.
    change (2 ^ 1) with 2. rewrite <- Z.bit0_mod.
    rewrite Z.shiftr_spec by lia. reflexivity. }
  rewrite Hon. destruct (Z.testbit row x); simpl.
  - rewrite andb_true_r. unfold to_uint8. rewrite Z.shiftl_1_l.
    rewrite Z.mod_small.
    + apply Z.pow2_bits_eqb; lia.
    + split; [lia|]. apply Z.pow_lt_mono_r; lia.
  - rewrite andb_false_r. apply Z.bits_0.
Qed.

(** The byte [fb_flush] builds for device [d]: bit [bit] of the byte is
    column [d*8 + bit] of the row, so the device's first column sits in the
    least-significant bit. *)
Lemma dev_byte_testbit row d bit :
  0 <= bit < 8 ->
  Z.testbit (dev_byte row d) bit = Z.testbit row (Z.of_nat d * 8 + bit).
Proof.
  intros Hbit. unfold dev_byte, upto. cbn [seq fold_left].
  rewrite !Z.lor_spec, !flush_term_testbit by lia.
  rewrite Z.bits_0. cbn [orb].
  assert (Hc : bit = 0 \/ bit = 1 \/ bit = 2 \/ bit = 3 \/
               bit = 4 \/ bit = 5 \/ bit = 6 \/ bit = 7) by lia.
  destruct Hc as [->|[->|[->|[->|[->|[->|[->| ->]]]]]]]; cbn;
    rewrite ?orb_false_r; reflexivity.
Qed.

Lemma dev_byte_high row d n : 8 <= n -> Z.testbit (dev_byte row d) n = false.
Proof.
  intros Hn. unfold dev_byte, upto. cbn [seq fold_left].
  rewrite !Z.lor_spec, !flush_term_testbit by lia.
  rewrite Z.bits_0. cbn [orb].
  repeat match goal with
         | |- context [Z.of_nat ?k =? n] =>
             replace (Z.of_nat k =? n) with false by (symmetry; apply Z.eqb_neq; lia)
         end.
  reflexivity.
Qed.

(** The byte is the row shifted down to the device's segment and cut to
    eight bits. *)
Lemma dev_byte_segment row d :
  dev_byte row d = Z.land (Z.shiftr row (Z.of_nat d * 8)) 255.
Proof.
  apply Z.bits_inj'; intros n Hn.
  change 255 with (Z.ones 8). rewrite Z.land_spec, Z.shiftr_spec by lia.
  destruct (Z.ltb_spec n 8).
  - rewrite Z.ones_spec_low, andb_true_r by lia.
    rewrite dev_byte_testbit by lia. f_equal. lia.
  - rewrite Z.ones_spec_high, andb_false_r by lia. now apply dev_byte_high.
Qed.

Lemma dev_bytes_eq row :
  dev_bytes row = [dev_byte row 0; dev_byte row 1; dev_byte row 2; dev_byte row 3].
Proof. reflexivity. Qed.

(** ** The transmit buffers *)

Ltac eight_cells tx H :=
  do 8 (destruct tx as [|? tx]; [discriminate H|]);
  destruct tx; [|discriminate H].

(** The loops fill every cell of [tx], whatever it held before. *)
Lemma broadcast_tx_any tx0 reg data :
  length tx0 = (NUM_DEVICES * 2)%nat ->
  broadcast_tx tx0 reg data = broadcast_frame reg data.
Proof. intros H. eight_cells tx0 H. reflexivity. Qed.

Lemma send_row_tx_any tx0 digit dev_data :
  length tx0 = (NUM_DEVICES * 2)%nat ->
  send_row_tx tx0 digit dev_data = row_frame (to_uint8 digit) dev_data.
Proof. intros H. eight_cells tx0 H. reflexivity. Qed.

Lemma to_uint8_digit digit : 1 <= digit <= 8 -> to_uint8 digit = digit.
Proof. intros H. apply Z.mod_small. lia. Qed.

Lemma broadcast_frame_length reg data :
  length (broadcast_frame reg data) = (2 * NUM_DEVICES)%nat.
Proof. reflexivity. Qed.

(** ** State bookkeeping *)

Lemma with_spi_log_id s : with_spi_log (spi_log s) s = s.
Proof. now destruct s. Qed.

Lemma with_fb_id s : with_fb (fb s) s = s.
Proof. now destruct s. Qed.

Lemma fb_with_fb f s : fb (with_fb f s) = f.
Proof. reflexivity. Qed.

Lemma with_fb_twice f g s : with_fb f (with_fb g s) = with_fb f s.
Proof. reflexivity. Qed.

Section Protocol.

Variable spi_reply : bus.

(** *** One write *)

Lemma transmit_one tx s :
  transmit spi_reply [tx] s =
    if spi_reply (spi_log s) tx =? sizeof_tx
    then (0, with_spi_log (spi_log s ++ [tx]) s)
    else (-1, with_stderr_log (stderr_log s ++ ["spi write"%string])
               (with_spi_log (spi_log s ++ [tx]) s)).
Proof.
  cbn. unfold bind, spi_write.
  now destruct (spi_reply (spi_log s) tx =? sizeof_tx).
Qed.

Lemma max7219_broadcast_transmit reg data :
  max7219_broadcast spi_reply reg data
  = transmit spi_reply [broadcast_frame reg data].
Proof. reflexivity. Qed.

Lemma max7219_send_row_transmit digit dev_data :
  1 <= digit <= 8 ->
  max7219_send_row spi_reply digit dev_data
  = transmit spi_reply [row_frame digit dev_data].
Proof.
  intros H. unfold max7219_send_row.
  rewrite Z.gtb_ltb.
  destruct (Z.ltb_spec digit 1); [lia|].
  destruct (Z.ltb_spec 8 digit); [lia|]. cbn [orb].
  rewrite send_row_tx_any by reflexivity.
  now rewrite to_uint8_digit.
Qed.

(** *** A run of writes *)

Lemma transmit_cons tx rest s :
  transmit spi_reply (tx :: rest) s =
    if spi_reply (spi_log s) tx =? sizeof_tx
    then transmit spi_reply rest (with_spi_log (spi_log s ++ [tx]) s)
    else (-1, with_stderr_log (stderr_log s ++ ["spi write"%string])
               (with_spi_log (spi_log s ++ [tx]) s)).
Proof.
  cbn. unfold bind, spi_write.
  now destruct (spi_reply (spi_log s) tx =? sizeof_tx).
Qed.

(** Writes touch the two logs only. *)
Lemma transmit_globals txs : forall s,
  let s' := snd (transmit spi_reply txs s) in
  fb s' = fb s /\ cur_light_x s' = cur_light_x s /\ cur_light_y s' = cur_light_y s.
Proof.
  induction txs as [|tx rest IH]; intros s; [easy|].
  cbn zeta. rewrite transmit_cons.
  destruct (spi_reply (spi_log s) tx =? sizeof_tx); [|easy].
  apply (IH (with_spi_log (spi_log s ++ [tx]) s)).
Qed.

Lemma transmit_result txs : forall s,
  fst (transmit spi_reply txs s) = 0 \/ fst (transmit spi_reply txs s) = -1.
Proof.
  induction txs as [|tx rest IH]; intros s; [now left|].
  rewrite transmit_cons.
  destruct (spi_reply (spi_log s) tx =? sizeof_tx); [apply IH|now right].
Qed.

(** Every frame taken: all of them are on the wire, in order. *)
Lemma transmit_all_taken txs : forall s,
  (forall j, (j < length txs)%nat ->
             taken spi_reply (spi_log s ++ take j txs) (txs !!! j)) ->
  transmit spi_reply txs s = (0, with_spi_log (spi_log s ++ txs) s).
Proof.
  induction txs as [|tx rest IH]; intros s H.
  - cbn. unfold ret. now rewrite app_nil_r, with_spi_log_id.
  - rewrite transmit_cons.
    pose proof (H 0%nat ltac:(cbn; lia)) as H0. unfold taken in H0.
    cbn in H0. rewrite app_nil_r in H0. rewrite H0, Z.eqb_refl.
    rewrite IH.
    + cbn. now rewrite <- app_assoc.
    + intros j Hj. specialize (H (S j) ltac:(cbn; lia)).
      cbn in *. now rewrite <- app_assoc.
Qed.

(** Frame [k] is the first one not taken: frames [0..k] are on the wire,
    nothing after them, and the result is [-1]. *)
Lemma transmit_first_short txs : forall k s,
  (k < length txs)%nat ->
  (forall j, (j < k)%nat -> taken spi_reply (spi_log s ++ take j txs) (txs !!! j)) ->
  ~ taken spi_reply (spi_log s ++ take k txs) (txs !!! k) ->
  transmit spi_reply txs s
  = (-1, with_stderr_log (stderr_log s ++ ["spi write"%string])
           (with_spi_log (spi_log s ++ take (S k) txs) s)).
Proof.
  induction txs as [|tx rest IH]; intros k s Hk Hok Hbad; [cbn in Hk; lia|].
  rewrite transmit_cons. destruct k as [|k].
  - unfold taken in Hbad. cbn in Hbad. rewrite app_nil_r in Hbad.
    apply Z.eqb_neq in Hbad. rewrite Hbad. reflexivity.
  - pose proof (Hok 0%nat ltac:(lia)) as H0. unfold taken in H0.
    cbn in H0. rewrite app_nil_r in H0. rewrite H0, Z.eqb_refl.
    rewrite (IH k).
    + cbn. now rewrite <- app_assoc.
    + cbn in Hk. lia.
    + intros j Hj. specialize (Hok (S j) ltac:(lia)).
      cbn in *. now rewrite <- app_assoc.
    + cbn in *. now rewrite <- app_assoc.
Qed.

(** A loop of guarded calls, each a single write, is a run of writes. *)
Lemma for_each_transmit {A : Type} (body : A -> M Z) (frame : A -> list Z)
    (f : list Z) (l : list A) : forall s,
  (forall i s', In i l -> fb s' = f ->
                body i s' = transmit spi_reply [frame i] s') ->
  fb s = f ->
  for_each body l s = transmit spi_reply (map frame l) s.
Proof.
  induction l as [|i l IH]; intros s Hbody Hf; [reflexivity|].
  cbn [for_each map]. unfold bind at 1.
  rewrite (Hbody i s (or_introl eq_refl) Hf), transmit_one, transmit_cons.
  destruct (spi_reply (spi_log s) (frame i) =? sizeof_tx); [|reflexivity].
  change (0 <? 0) with false. cbn iota.
  apply IH; [|exact Hf].
  intros j s' Hj. apply Hbody. now right.
Qed.

Lemma fb_flush_transmit s :
  fb_flush spi_reply s
  = transmit spi_reply (map (flush_frame (fb s)) (upto (Z.to_nat HEIGHT))) s.
Proof.
  unfold fb_flush. apply for_each_transmit with (f := fb s); [|reflexivity].
  intros y s' Hy Hs'. unfold bind, gets. rewrite Hs'.
  change (In y (seq 0 8)) in Hy. apply in_seq in Hy.
  rewrite max7219_send_row_transmit by lia. reflexivity.
Qed.

End Protocol.

(** ** Flush engine: bit packing *)

(** C1 (as the code has it).  For every device [d] of the chain, a row with
    only column [d*8] lit gives device [d] the byte [0b00000001], and a row
    with only column [d*8+7] lit gives it [0b10000000]: [fb_flush] puts the
    leftmost column of a segment in the least-significant bit, the reverse
    of the MSB-first packing announced in its comment. *)
Theorem flush_byte_is_lsb_first (d : nat) :
  (d < NUM_DEVICES)%nat ->
  dev_bytes (Z.shiftl 1 (Z.of_nat d * 8)) !! d = Some 1 /\
  dev_bytes (Z.shiftl 1 (Z.of_nat d * 8 + 7)) !! d = Some 128.
Proof.
  intros Hd. unfold NUM_DEVICES in Hd.
  destruct d as [|[|[|[|d]]]]; [| | | |lia]; split; reflexivity.
Qed.

Lemma flush_byte_is_lsb_first_witness :
  (2 < NUM_DEVICES)%nat /\
  dev_bytes (Z.shiftl 1 16) !! 2%nat = Some 1 /\
  dev_bytes (Z.shiftl 1 23) !! 2%nat = Some 128.
Proof.
  split; [unfold NUM_DEVICES; lia|].
  apply (flush_byte_is_lsb_first 2). unfold NUM_DEVICES; lia.
Defined.

(** ** Register protocol *)

(** C2.  For a row index in [1,8] and one data byte per device,
    [max7219_send_row] hands the bus one buffer of [2*D] bytes in which the
    pair of logical device [d] sits at wire position [D-1-d]: the row index
    at offset [2*(D-1-d)] and [dev_data[d]] at offset [2*(D-1-d)+1]. *)
Theorem send_row_wire_position (spi_reply : bus) (row : Z) (dev_data : list Z)
    (s : state) (d : nat) :
  1 <= row <= 8 ->
  length dev_data = NUM_DEVICES ->
  (d < NUM_DEVICES)%nat ->
  exists tx,
    spi_log (snd (max7219_send_row spi_reply row dev_data s)) = spi_log s ++ [tx] /\
    length tx = (2 * NUM_DEVICES)%nat /\
    tx !! (2 * (NUM_DEVICES - 1 - d))%nat = Some row /\
    tx !! (2 * (NUM_DEVICES - 1 - d) + 1)%nat = dev_data !! d.
Proof.
  intros Hrow Hlen Hd. exists (row_frame row dev_data).
  rewrite max7219_send_row_transmit, transmit_one by assumption.
  split; [now destruct (_ =? _)|].
  split; [reflexivity|].
  unfold NUM_DEVICES in *.
  do 4 (destruct dev_data as [|? dev_data]; [discriminate Hlen|]).
  destruct dev_data; [|discriminate Hlen].
  destruct d as [|[|[|[|d]]]]; [| | | |lia]; split; reflexivity.
Qed.

Lemma send_row_wire_position_witness :
  exists tx,
    spi_log (snd (max7219_send_row full_bus 3 [10; 11; 12; 13] power_on)) = [tx] /\
    length tx = 8%nat /\
    tx !! 4%nat = Some 3 /\
    tx !! 5%nat = Some 11.
Proof.
  apply (send_row_wire_position full_bus 3 [10; 11; 12; 13] power_on 1);
    [lia | reflexivity | unfold NUM_DEVICES; lia].
Defined.

(** C6.  [max7219_broadcast] builds the [2*D]-byte buffer that repeats the
    pair [(reg, data)] once per device, performs one bus write of it, and
    returns [-1] exactly when the byte count reported by the write is not
    [2*D] (and [0] otherwise). *)
Theorem broadcast_single_write (spi_reply : bus) (reg data : Z) (s : state) :
  let tx := concat (replicate NUM_DEVICES [reg; data]) in
  let n := spi_reply (spi_log s) tx in
  let r := fst (max7219_broadcast spi_reply reg data s) in
  length tx = (2 * NUM_DEVICES)%nat /\
  spi_log (snd (max7219_broadcast spi_reply reg data s)) = spi_log s ++ [tx] /\
  (r = -1 <-> n <> 2 * Z.of_nat NUM_DEVICES) /\
  (r = 0 <-> n = 2 * Z.of_nat NUM_DEVICES).
Proof.
  cbn zeta. rewrite max7219_broadcast_transmit, transmit_one.
  fold (broadcast_frame reg data).
  split; [reflexivity|].
  change (2 * Z.of_nat NUM_DEVICES) with sizeof_tx.
  destruct (Z.eqb_spec (spi_reply (spi_log s) (broadcast_frame reg data)) sizeof_tx)
    as [He|Hne]; cbn [fst snd].
  - split; [reflexivity|]. split; split; intros; [discriminate|contradiction|assumption|reflexivity].
  - split; [reflexivity|]. split; split; intros; [assumption|reflexivity|discriminate|contradiction].
Qed.

(** C7.  A row index outside [1,8] makes [max7219_send_row] return [-1]
    with the state untouched: nothing is written to the bus. *)
Theorem send_row_rejects_bad_index (spi_reply : bus) (row : Z)
    (dev_data : list Z) (s : state) :
  row < 1 \/ 8 < row ->
  max7219_send_row spi_reply row dev_data s = (-1, s).
Proof.
  intros H. unfold max7219_send_row. rewrite Z.gtb_ltb.
  destruct (Z.ltb_spec row 1); [reflexivity|].
  destruct (Z.ltb_spec 8 row); [reflexivity|lia].
Qed.

Lemma send_row_rejects_bad_index_witness :
  max7219_send_row full_bus 0 [1; 2; 3; 4] power_on = (-1, power_on) /\
  max7219_send_row full_bus 9 [1; 2; 3; 4] power_on = (-1, power_on).
Proof.
  split.
  - apply (send_row_rejects_bad_index full_bus 0). left. lia.
  - apply (send_row_rejects_bad_index full_bus 9). right. lia.
Defined.

(** ** Initialisation *)

Section Init.

Variable spi_reply : bus.

Lemma orfail_transmit tx rest s :
  orfail (transmit spi_reply [tx]) (transmit spi_reply rest) s
  = transmit spi_reply (tx :: rest) s.
Proof.
  unfold orfail, bind. rewrite transmit_one, transmit_cons.
  now destruct (spi_reply (spi_log s) tx =? sizeof_tx).
Qed.

Lemma orfail_ext call rest rest' s :
  (forall s', rest s' = rest' s') ->
  orfail call rest s = orfail call rest' s.
Proof.
  intros H. unfold orfail, bind. destruct (call s) as [r s'].
  destruct (r <? 0); [reflexivity|apply H].
Qed.

Lemma init_clear_rows s :
  for_each (fun row => max7219_send_row spi_reply row [0; 0; 0; 0])
    [1; 2; 3; 4; 5; 6; 7; 8] s
  = transmit spi_reply
      (map (fun row => row_frame row (replicate NUM_DEVICES 0))
           [1; 2; 3; 4; 5; 6; 7; 8]) s.
Proof.
  apply for_each_transmit with (f := fb s); [|reflexivity].
  intros row s' Hrow _. rewrite max7219_send_row_transmit; [reflexivity|].
  cbn in Hrow. lia.
Qed.

Lemma max7219_init_transmit intensity s :
  max7219_init spi_reply intensity s
  = transmit spi_reply (init_frames (Z.min intensity 15)) s.
Proof.
  unfold max7219_init, init_frames.
  replace (if intensity >? 15 then 15 else intensity) with (Z.min intensity 15)
    by (rewrite Z.gtb_ltb; destruct (Z.ltb_spec 15 intensity); lia).
  rewrite !max7219_broadcast_transmit. cbn [app]. revert s.
  do 5 (intros ?s; rewrite <- orfail_transmit; apply orfail_ext).
  apply init_clear_rows.
Qed.

End Init.

(** C5.  When the bus takes every frame, [max7219_init] returns [0] after
    exactly these writes, in this order: the broadcasts DISPLAYTEST=0,
    DECODE=0, SCANLIMIT=7, INTENSITY=min(intensity,15), SHUTDOWN=1, then one
    row write per row 1..8 whose data bytes are all zero. *)
Theorem max7219_init_sequence (spi_reply : bus) (intensity : Z) (s : state) :
  let txs :=
    [ broadcast_frame REG_DISPLAYTEST 0;
      broadcast_frame REG_DECODE 0;
      broadcast_frame REG_SCANLIMIT 7;
      broadcast_frame REG_INTENSITY (Z.min intensity 15);
      broadcast_frame REG_SHUTDOWN 1 ]
    ++ map (fun row => row_frame row (replicate NUM_DEVICES 0))
           [1; 2; 3; 4; 5; 6; 7; 8] in
  0 <= intensity < 256 ->
  (forall j, (j < length txs)%nat ->
             taken spi_reply (spi_log s ++ take j txs) (txs !!! j)) ->
  max7219_init spi_reply intensity s = (0, with_spi_log (spi_log s ++ txs) s).
Proof.
  intros txs _ Htaken. rewrite max7219_init_transmit.
  now apply transmit_all_taken.
Qed.

Lemma full_bus_takes_frames (log : list (list Z)) (txs : list (list Z)) (j : nat) :
  Forall (fun tx => length tx = (2 * NUM_DEVICES)%nat) txs ->
  (j < length txs)%nat ->
  taken full_bus log (txs !!! j).
Proof.
  intros Hall Hj. unfold taken, full_bus.
  destruct (lookup_lt_is_Some_2 txs j Hj) as [tx Htx].
  rewrite (list_lookup_total_correct _ _ _ Htx).
  rewrite Forall_lookup in Hall. now rewrite (Hall _ _ Htx).
Qed.

Lemma max7219_init_sequence_witness :
  max7219_init full_bus 20 power_on
  = (0, with_spi_log
          [ [15; 0; 15; 0; 15; 0; 15; 0]; [9; 0; 9; 0; 9; 0; 9; 0];
            [11; 7; 11; 7; 11; 7; 11; 7]; [10; 15; 10; 15; 10; 15; 10; 15];
            [12; 1; 12; 1; 12; 1; 12; 1];
            [1; 0; 1; 0; 1; 0; 1; 0]; [2; 0; 2; 0; 2; 0; 2; 0];
            [3; 0; 3; 0; 3; 0; 3; 0]; [4; 0; 4; 0; 4; 0; 4; 0];
            [5; 0; 5; 0; 5; 0; 5; 0]; [6; 0; 6; 0; 6; 0; 6; 0];
            [7; 0; 7; 0; 7; 0; 7; 0]; [8; 0; 8; 0; 8; 0; 8; 0] ] power_on).
Proof.
  apply (max7219_init_sequence full_bus 20 power_on); [lia|].
  intros j Hj. apply full_bus_takes_frames; [|exact Hj].
  repeat constructor.
Defined.

(** ** Flush engine: error handling *)

(** C8.  Let [txs] be the eight row frames of the framebuffer, rows 1..8 in
    order.  If the bus takes the first [k] of them and, when [k < 8], does
    not take frame [k], then [fb_flush] writes frames [0..k] and nothing
    after them, returning [-1]; when all eight are taken ([k = 8]) it
    writes exactly the eight frames and returns [0]. *)
Theorem fb_flush_stops_at_first_error (spi_reply : bus) (s : state) (k : nat) :
  let txs := map (fun y => row_frame (Z.of_nat y + 1) (dev_bytes (fb s !!! y)))
                 [0; 1; 2; 3; 4; 5; 6; 7]%nat in
  (k <= 8)%nat ->
  (forall j, (j < k)%nat ->
             taken spi_reply (spi_log s ++ take j txs) (txs !!! j)) ->
  ((k < 8)%nat -> ~ taken spi_reply (spi_log s ++ take k txs) (txs !!! k)) ->
  fst (fb_flush spi_reply s) = (if (k <? 8)%nat then -1 else 0) /\
  spi_log (snd (fb_flush spi_reply s)) = spi_log s ++ take (S k) txs /\
  length (take (S k) txs) = Nat.min (S k) 8.
Proof.
  intros txs Hk Hok Hbad. rewrite fb_flush_transmit.
  change (map (flush_frame (fb s)) (upto (Z.to_nat HEIGHT))) with txs.
  assert (Hlen : length txs = 8%nat) by reflexivity.
  split; [|split; [|rewrite length_take; lia]].
  - destruct (Nat.ltb_spec k 8) as [Hlt|Hge].
    + rewrite (transmit_first_short spi_reply txs k)
        by (try assumption; try lia; auto).
      reflexivity.
    + rewrite transmit_all_taken; [reflexivity|].
      intros j Hj. apply Hok. lia.
  - destruct (Nat.lt_ge_cases k 8) as [Hlt|Hge].
    + rewrite (transmit_first_short spi_reply txs k)
        by (try assumption; try lia; auto).
      reflexivity.
    + rewrite transmit_all_taken.
      * cbn [snd]. rewrite firstn_all2 by lia. reflexivity.
      * intros j Hj. apply Hok. lia.
Qed.

Lemma fb_flush_stops_at_first_error_witness :
  (fst (fb_flush (short_from 2) corner_lit) = -1 /\
   spi_log (snd (fb_flush (short_from 2) corner_lit))
   = [ [1; 0; 1; 0; 1; 0; 1; 1]; [2; 0; 2; 0; 2; 0; 2; 0];
       [3; 0; 3; 0; 3; 0; 3; 0] ]) /\
  (fst (fb_flush full_bus corner_lit) = 0 /\
   length (spi_log (snd (fb_flush full_bus corner_lit))) = 8%nat).
Proof.
  split.
  - destruct (fb_flush_stops_at_first_error (short_from 2) corner_lit 2)
      as (Hr & Hlog & _).
    + lia.
    + intros j Hj. destruct j as [|[|j]]; [reflexivity|reflexivity|lia].
    + intros _ H. unfold taken in H. vm_compute in H. discriminate H.
    + split; [exact Hr|exact Hlog].
  - destruct (fb_flush_stops_at_first_error full_bus corner_lit 8) as (Hr & Hlog & Hlen).
    + lia.
    + intros j Hj. apply full_bus_takes_frames; [repeat constructor|].
      cbn [length map]. lia.
    + intros H. lia.
    + split; [exact Hr|]. rewrite Hlog. reflexivity.
Defined.

(** ** Framebuffer *)

Lemma in_bounds_test x y :
  0 <= x < WIDTH -> 0 <= y < HEIGHT ->
  (x <? 0) || (x >=? WIDTH) || (y <? 0) || (y >=? HEIGHT) = false.
Proof.
  intros Hx Hy. rewrite !Z.geb_leb.
  destruct (Z.ltb_spec x 0); [lia|]. destruct (Z.leb_spec WIDTH x); [lia|].
  destruct (Z.ltb_spec y 0); [lia|]. destruct (Z.leb_spec HEIGHT y); [lia|].
  reflexivity.
Qed.

Lemma fb_set_pixel_out_of_range x y on s :
  x < 0 \/ WIDTH <= x \/ y < 0 \/ HEIGHT <= y ->
  fb_set_pixel x y on s = (tt, s).
Proof.
  intros H. unfold fb_set_pixel. rewrite !Z.geb_leb.
  destruct (Z.ltb_spec x 0); [reflexivity|].
  destruct (Z.leb_spec WIDTH x); [reflexivity|].
  destruct (Z.ltb_spec y 0); [reflexivity|].
  destruct (Z.leb_spec HEIGHT y); [reflexivity|lia].
Qed.

(** What an in-bounds [fb_set_pixel] does to the framebuffer. *)
Lemma fb_set_pixel_in_bounds x y on s :
  0 <= x < WIDTH -> 0 <= y < HEIGHT ->
  fb_set_pixel x y on s
  = (tt, with_fb (<[Z.to_nat y :=
                     if on =? 0
                     then Z.land (fb s !!! Z.to_nat y) (not32 (2 ^ x))
                     else Z.lor (fb s !!! Z.to_nat y) (2 ^ x)]> (fb s)) s).
Proof.
  intros Hx Hy. unfold fb_set_pixel. rewrite in_bounds_test by assumption.
  unfold WIDTH in Hx. rewrite pixel_mask by assumption.
  unfold modify. now destruct (on =? 0).
Qed.

Lemma fb_wf_row f y :
  fb_wf f -> 0 <= y < HEIGHT ->
  f !! Z.to_nat y = Some (f !!! Z.to_nat y) /\ 0 <= f !!! Z.to_nat y < 2 ^ 32.
Proof.
  intros [Hlen Hrows] Hy.
  assert (Hlt : (Z.to_nat y < length f)%nat) by (rewrite Hlen; unfold HEIGHT in *; lia).
  destruct (lookup_lt_is_Some_2 f _ Hlt) as [v Hv].
  rewrite (list_lookup_total_correct _ _ _ Hv). split; [exact Hv|].
  rewrite Forall_lookup in Hrows. exact (Hrows _ _ Hv).
Qed.

(** The invariant is kept by both mutators. *)
Lemma fb_clear_wf s : fb_wf (fb s) -> fb_wf (fb (snd (fb_clear s))).
Proof.
  destruct s as [l e f x y]. intros [Hlen _]. cbn in Hlen |- *.
  eight_cells f Hlen.
  split; [reflexivity|]. cbn. repeat constructor; lia.
Qed.

Lemma uint32_of_bits a :
  0 <= a -> (forall n, 32 <= n -> Z.testbit a n = false) -> 0 <= a < 2 ^ 32.
Proof.
  intros Ha Hbits. split; [exact Ha|].
  replace a with (a mod 2 ^ 32); [apply Z.mod_pos_bound; lia|].
  apply Z.bits_inj'; intros n Hn.
  destruct (Z.lt_ge_cases n 32).
  - apply Z.mod_pow2_bits_low; lia.
  - rewrite Z.mod_pow2_bits_high by lia. symmetry. now apply Hbits.
Qed.

Lemma fb_set_pixel_wf x y on s :
  fb_wf (fb s) -> fb_wf (fb (snd (fb_set_pixel x y on s))).
Proof.
  intros Hwf.
  destruct (Z.lt_ge_cases x 0); [|destruct (Z.lt_ge_cases x WIDTH);
    [destruct (Z.lt_ge_cases y 0); [|destruct (Z.lt_ge_cases y HEIGHT)]|]];
    try (rewrite fb_set_pixel_out_of_range by lia; exact Hwf).
  assert (Hx : 0 <= x < 32) by (unfold WIDTH in *; lia).
  destruct (fb_wf_row (fb s) y Hwf ltac:(lia)) as [_ Hrow].
  rewrite fb_set_pixel_in_bounds by lia. cbn [snd]. rewrite fb_with_fb.
  destruct Hwf as [Hlen Hrows]. split; [now rewrite length_insert|].
  apply Forall_insert; [exact Hrows|].
  destruct (on =? 0); apply uint32_of_bits.
  - apply Z.land_nonneg. left. lia.
  - intros n Hn. rewrite Z.land_spec, uint32_high_bits by lia. reflexivity.
  - apply Z.lor_nonneg. split; [lia|]. apply Z.pow_nonneg. lia.
  - intros n Hn. rewrite Z.lor_spec, uint32_high_bits by lia.
    rewrite Z.pow2_bits_eqb by lia. apply Z.eqb_neq. lia.
Qed.

(** Set then clear, on any row: bit [x] ends up clear, the rest of the row
    and all other rows are as before. *)
Lemma set_then_clear_row x y s :
  0 <= x < WIDTH -> 0 <= y < HEIGHT -> fb_wf (fb s) ->
  snd (fb_set_pixel x y 0 (snd (fb_set_pixel x y 1 s)))
  = with_fb (<[Z.to_nat y := Z.clearbit (fb s !!! Z.to_nat y) x]> (fb s)) s.
Proof.
  intros Hx Hy Hwf.
  destruct (fb_wf_row _ _ Hwf Hy) as [Hrow Hrange].
  rewrite (fb_set_pixel_in_bounds x y 1 s) by assumption. cbn [snd].
  rewrite fb_set_pixel_in_bounds by assumption. cbn [snd].
  change (1 =? 0) with false. change (0 =? 0) with true. cbn iota.
  rewrite with_fb_twice, !fb_with_fb.
  rewrite list_lookup_total_insert_eq by (apply lookup_lt_is_Some; eauto).
  rewrite list_insert_insert_eq.
  unfold WIDTH in Hx. rewrite set_then_clear_bit by assumption.
  reflexivity.
Qed.

(** C3 (amended).  For an in-bounds pixel that is off, [fb_set_pixel(x,y,1)]
    followed by [fb_set_pixel(x,y,0)] restores row [y], and with it the
    whole state. *)
Theorem set_then_clear_restores_unlit (x y : Z) (s : state) :
  0 <= x < WIDTH -> 0 <= y < HEIGHT ->
  fb_wf (fb s) ->
  Z.testbit (fb s !!! Z.to_nat y) x = false ->
  let s' := snd (fb_set_pixel x y 0 (snd (fb_set_pixel x y 1 s))) in
  fb s' !!! Z.to_nat y = fb s !!! Z.to_nat y /\ s' = s.
Proof.
  intros Hx Hy Hwf Hoff s'.
  assert (Hs' : s' = s).
  { unfold s'. rewrite set_then_clear_row by assumption.
    rewrite clearbit_clear by (assumption || lia).
    rewrite list_insert_id by (apply fb_wf_row; assumption).
    apply with_fb_id. }
  now rewrite Hs'.
Qed.

Lemma power_on_wf : fb_wf (fb power_on).
Proof. split; [reflexivity|]. repeat constructor; lia. Qed.

Lemma set_then_clear_restores_unlit_witness :
  fb (snd (fb_set_pixel 31 7 0 (snd (fb_set_pixel 31 7 1 power_on)))) !!! 7%nat
  = fb power_on !!! 7%nat /\
  snd (fb_set_pixel 31 7 0 (snd (fb_set_pixel 31 7 1 power_on))) = power_on.
Proof.
  apply (set_then_clear_restores_unlit 31 7 power_on).
  - unfold WIDTH; lia.
  - unfold HEIGHT; lia.
  - exact power_on_wf.
  - reflexivity.
Defined.

(** C3 as stated fails when the pixel is lit beforehand: in [corner_lit]
    row 0 is [1]; after setting and clearing pixel (0,0) it is [0]. *)
Lemma set_then_clear_loses_lit_pixel :
  0 <= 0 < WIDTH /\ 0 <= 0 < HEIGHT /\ fb_wf (fb corner_lit) /\
  fb corner_lit !!! 0%nat = 1 /\
  fb (snd (fb_set_pixel 0 0 0 (snd (fb_set_pixel 0 0 1 corner_lit)))) !!! 0%nat = 0 /\
  fb (snd (fb_set_pixel 0 0 0 (snd (fb_set_pixel 0 0 1 corner_lit)))) !!! 0%nat
  <> fb corner_lit !!! 0%nat.
Proof.
  split; [unfold WIDTH; lia|]. split; [unfold HEIGHT; lia|].
  split; [split; [reflexivity|repeat constructor; lia]|].
  split; [reflexivity|]. split; [reflexivity|].
  vm_compute. discriminate.
Qed.

(** C4.  Outside [0,WIDTH) x [0,HEIGHT), [fb_set_pixel] returns (it has no
    error result) and leaves the whole state, framebuffer included, as it
    was, whatever the [on] argument. *)
Theorem fb_set_pixel_out_of_bounds (x y on : Z) (s : state) :
  x < 0 \/ WIDTH <= x \/ y < 0 \/ HEIGHT <= y ->
  fb_set_pixel x y on s = (tt, s).
Proof. apply fb_set_pixel_out_of_range. Qed.

Lemma fb_set_pixel_out_of_bounds_witness :
  fb_set_pixel (-1) 0 1 corner_lit = (tt, corner_lit) /\
  fb_set_pixel 32 0 1 corner_lit = (tt, corner_lit) /\
  fb_set_pixel 0 (-1) 0 corner_lit = (tt, corner_lit) /\
  fb_set_pixel 0 8 0 corner_lit = (tt, corner_lit).
Proof.
  split; [|split; [|split]].
  - apply (fb_set_pixel_out_of_bounds (-1) 0 1). left. lia.
  - apply (fb_set_pixel_out_of_bounds 32 0 1). right. left. unfold WIDTH. lia.
  - apply (fb_set_pixel_out_of_bounds 0 (-1) 0). right. right. left. lia.
  - apply (fb_set_pixel_out_of_bounds 0 8 0). right. right. right. unfold HEIGHT. lia.
Defined.

(** ** Animation cursor *)

Section Cursor.

Variable spi_reply : bus.

Lemma fb_set_pixel_cursors x y on s :
  cur_light_x (snd (fb_set_pixel x y on s)) = cur_light_x s /\
  cur_light_y (snd (fb_set_pixel x y on s)) = cur_light_y s.
Proof.
  unfold fb_set_pixel.
  destruct ((x <? 0) || (x >=? WIDTH) || (y <? 0) || (y >=? HEIGHT)); [easy|].
  unfold modify. now destruct (on =? 0).
Qed.

Lemma fb_flush_cursors s :
  cur_light_x (snd (fb_flush spi_reply s)) = cur_light_x s /\
  cur_light_y (snd (fb_flush spi_reply s)) = cur_light_y s.
Proof. rewrite fb_flush_transmit. apply transmit_globals. Qed.

(** Showing the cursor leaves it where it is and yields [0] or [1]. *)
Lemma show_cursor_spec s :
  cur_light_x (snd (show_cursor spi_reply s)) = cur_light_x s /\
  cur_light_y (snd (show_cursor spi_reply s)) = cur_light_y s /\
  (fst (show_cursor spi_reply s) = 0 \/ fst (show_cursor spi_reply s) = 1).
Proof.
  unfold show_cursor, bind, gets. cbn [fb_clear modify].
  set (s1 := with_fb _ s).
  destruct (fb_set_pixel_cursors (cur_light_x s1) (cur_light_y s1) 1 s1) as [Hx1 Hy1].
  destruct (fb_set_pixel _ _ 1 s1) as [[] s2]. cbn [snd] in Hx1, Hy1.
  destruct (fb_flush_cursors s2) as [Hx2 Hy2].
  destruct (fb_flush spi_reply s2) as [r s3]. cbn [snd] in Hx2, Hy2.
  destruct (r <? 0); cbn [ret fst snd]; rewrite Hx2, Hy2, Hx1, Hy1; auto.
Qed.

(** [next_light] written out on a state. *)
Lemma next_light_eq s :
  next_light spi_reply s =
    let s1 := with_x (cur_light_x s + 1) s in
    if cur_light_x s + 1 >? HEIGHT then
      let s2 := with_y (cur_light_y s + 1) s1 in
      if cur_light_y s + 1 >? HEIGHT then (1, s2)
      else show_cursor spi_reply s2
    else show_cursor spi_reply s1.
Proof.
  destruct s as [l e f x y].
  unfold next_light, bind, gets, modify, ret, with_x, with_y.
  cbn [cur_light_x].
  destruct (x + 1 >? HEIGHT); [|reflexivity].
  cbn [cur_light_x cur_light_y spi_log stderr_log fb].
  now destruct (y + 1 >? HEIGHT).
Qed.

(** One call of [next_light]: [cur_light_x] goes up by one whatever the
    state; [cur_light_y] goes up by one exactly when the new
    [cur_light_x] exceeds [HEIGHT]; the call refuses to go on once both
    exceed [HEIGHT]. *)
Lemma next_light_step s :
  let x' := cur_light_x s + 1 in
  let y' := if x' >? HEIGHT then cur_light_y s + 1 else cur_light_y s in
  cur_light_x (snd (next_light spi_reply s)) = x' /\
  cur_light_y (snd (next_light spi_reply s)) = y' /\
  (fst (next_light spi_reply s) = 0 \/ fst (next_light spi_reply s) = 1) /\
  (fst (next_light spi_reply s) = 0 -> x' > HEIGHT -> y' <= HEIGHT).
Proof.
  cbn zeta. rewrite next_light_eq. cbn zeta.
  destruct (cur_light_x s + 1 >? HEIGHT) eqn:Ex.
  - destruct (Z.gtb_spec (cur_light_y s + 1) HEIGHT) as [Hy|Hy].
    + cbn. repeat split; auto. intros H; discriminate H.
    + destruct (show_cursor_spec
                  (with_y (cur_light_y s + 1) (with_x (cur_light_x s + 1) s)))
        as (Hcx & Hcy & Hr).
      rewrite Hcx, Hcy. cbn. repeat split; auto.
  - destruct (show_cursor_spec (with_x (cur_light_x s + 1) s))
      as (Hcx & Hcy & Hr).
    rewrite Hcx, Hcy. cbn. repeat split; auto.
    intros _ H. apply Z.gtb_gt in H. congruence.
Qed.

Lemma calls_x n : forall s,
  cur_light_x (calls spi_reply n s) = cur_light_x s + Z.of_nat n.
Proof.
  induction n as [|n IH]; intros s; cbn [calls]; [lia|].
  rewrite IH. destruct (next_light_step s) as [Hx _]. rewrite Hx. lia.
Qed.

Lemma calls_y n : forall s,
  cur_light_y s <= cur_light_y (calls spi_reply n s) <= cur_light_y s + Z.of_nat n.
Proof.
  induction n as [|n IH]; intros s; cbn [calls]; [lia|].
  specialize (IH (snd (next_light spi_reply s))).
  destruct (next_light_step s) as (_ & Hy & _). rewrite Hy in IH.
  destruct (cur_light_x s + 1 >? HEIGHT); lia.
Qed.

Lemma main_loop_S fuel s :
  main_loop spi_reply (S fuel) s =
    let s' := snd (next_light spi_reply s) in
    if fst (next_light spi_reply s) =? 0
    then (option_map S (fst (main_loop spi_reply fuel s')),
          snd (main_loop spi_reply fuel s'))
    else (Some 1%nat, s').
Proof.
  cbn [main_loop]. unfold bind.
  destruct (next_light spi_reply s) as [r s']. cbn [fst snd].
  destruct (r =? 0); [|reflexivity].
  now destruct (main_loop spi_reply fuel s').
Qed.

(** With enough fuel the loop of [main] exits, after at most
    [remaining s] calls. *)
Lemma main_loop_exits fuel : forall s,
  (remaining s <= fuel)%nat ->
  exists k, (1 <= k <= remaining s)%nat /\
            fst (main_loop spi_reply fuel s) = Some k.
Proof.
  induction fuel as [|fuel IH]; intros s Hfuel.
  - unfold remaining in Hfuel. lia.
  - rewrite main_loop_S. cbn zeta.
    destruct (next_light_step s) as (Hx & Hy & Hr & Hstop).
    destruct (Z.eqb_spec (fst (next_light spi_reply s)) 0) as [H0|H0].
    + assert (Hdec : (remaining (snd (next_light spi_reply s)) < remaining s)%nat).
      { specialize (Hstop H0). unfold remaining. rewrite Hx, Hy.
        unfold HEIGHT in *.
        destruct (Z.gtb_spec (cur_light_x s + 1) 8); lia. }
      destruct (IH (snd (next_light spi_reply s)) ltac:(lia)) as (k & Hk & Hloop).
      exists (S k). cbn [fst]. rewrite Hloop. split; [lia|reflexivity].
    + exists 1%nat. split; [|reflexivity]. unfold remaining. lia.
Qed.

(** The state in which the loop exits is the one reached by the calls it
    made. *)
Lemma main_loop_calls fuel : forall s k,
  fst (main_loop spi_reply fuel s) = Some k ->
  snd (main_loop spi_reply fuel s) = calls spi_reply k s.
Proof.
  induction fuel as [|fuel IH]; intros s k; [discriminate|].
  rewrite main_loop_S. cbn zeta.
  destruct (fst (next_light spi_reply s) =? 0); cbn [fst snd].
  - destruct (fst (main_loop spi_reply fuel _)) as [k'|] eqn:Hk'; [|discriminate].
    intros [= <-]. cbn [calls]. now apply IH.
  - now intros [= <-].
Qed.

(** No [++] of [next_light] overflows an [int] while [main] runs. *)
Lemma main_loop_in_int_range s n :
  (n <= 17)%nat ->
  let s' := calls spi_reply n (with_x 0 (with_y 0 s)) in
  0 <= cur_light_x s' < INT_MAX /\ 0 <= cur_light_y s' < INT_MAX.
Proof.
  intros Hn s'. unfold s', INT_MAX. rewrite calls_x.
  pose proof (calls_y n (with_x 0 (with_y 0 s))) as Hy.
  cbn [cur_light_x cur_light_y with_x with_y] in *. lia.
Qed.

End Cursor.

(** C9.  In [next_light] the wrap test on [cur_light_x] is against [HEIGHT]
    (8) and [cur_light_x == 0;] changes nothing: every call adds one to
    [cur_light_x], and [cur_light_y] advances exactly when the new
    [cur_light_x] exceeds [HEIGHT].  Started with both cursors at 0, the
    n-th call leaves [cur_light_x = n], and the loop of [main] ends after at
    most 17 calls, in the state those calls produce. *)
Theorem next_light_never_resets_x (spi_reply : bus) (s : state) (n : nat) :
  let start := with_x 0 (with_y 0 s) in
  cur_light_x (snd (next_light spi_reply s)) = cur_light_x s + 1 /\
  cur_light_y (snd (next_light spi_reply s))
  = (if cur_light_x s + 1 >? HEIGHT then cur_light_y s + 1 else cur_light_y s) /\
  cur_light_x (calls spi_reply n start) = Z.of_nat n /\
  exists k, (1 <= k <= 17)%nat /\
            main_loop spi_reply 17 start = (Some k, calls spi_reply k start).
Proof.
  intros start.
  destruct (next_light_step spi_reply s) as (Hx & Hy & _).
  split; [exact Hx|]. split; [exact Hy|]. split.
  - unfold start. rewrite calls_x. cbn. lia.
  - destruct (main_loop_exits spi_reply 17 start) as (k & Hk & Hloop).
    + reflexivity.
    + exists k. split; [exact Hk|].
      rewrite (surjective_pairing (main_loop spi_reply 17 start)).
      now rewrite Hloop, (main_loop_calls spi_reply 17 start k Hloop).
Qed.

(** * Further properties of the driver *)

(** ** Framebuffer: pixels *)

Lemma fb_clear_zeroes (s : state) :
  length (fb s) = Z.to_nat HEIGHT ->
  snd (fb_clear s) = with_fb (replicate (Z.to_nat HEIGHT) 0) s.
Proof.
  intros Hlen. destruct s as [l e f cx cy]. cbn in Hlen.
  eight_cells f Hlen. reflexivity.
Qed.

Lemma pixel_blank (x y : Z) :
  0 <= y < HEIGHT -> pixel (replicate (Z.to_nat HEIGHT) 0) x y = false.
Proof.
  intros Hy. unfold pixel.
  rewrite lookup_total_replicate_2 by (unfold HEIGHT in *; lia).
  apply Z.bits_0.
Qed.

(** X1.  On a framebuffer of [HEIGHT] rows, [fb_clear] turns every pixel
    off: all rows become zero, and the logs and the cursors are as
    before. *)
Theorem fb_clear_all_off (s : state) (x y : Z) :
  length (fb s) = Z.to_nat HEIGHT ->
  0 <= y < HEIGHT ->
  let s' := snd (fb_clear s) in
  pixel (fb s') x y = false /\
  s' = with_fb (replicate (Z.to_nat HEIGHT) 0) s.
Proof.
  intros Hlen Hy s'. unfold s'. rewrite fb_clear_zeroes by assumption.
  split; [|reflexivity]. rewrite fb_with_fb. now apply pixel_blank.
Qed.

Lemma fb_clear_all_off_witness :
  pixel (fb (snd (fb_clear corner_lit))) 0 0 = false /\
  snd (fb_clear corner_lit) = with_fb (replicate (Z.to_nat HEIGHT) 0) corner_lit.
Proof.
  apply (fb_clear_all_off corner_lit 0 0); [reflexivity|]. unfold HEIGHT. lia.
Defined.

Lemma pixel_fb_set_pixel (x y on x' y' : Z) (s : state) :
  0 <= x < WIDTH -> 0 <= y < HEIGHT ->
  0 <= x' < WIDTH -> 0 <= y' < HEIGHT ->
  length (fb s) = Z.to_nat HEIGHT ->
  pixel (fb (snd (fb_set_pixel x y on s))) x' y'
  = if (x' =? x) && (y' =? y) then negb (on =? 0) else pixel (fb s) x' y'.
Proof.
  intros Hx Hy Hx' Hy' Hlen. unfold pixel.
  rewrite fb_set_pixel_in_bounds by assumption. cbn [snd]. rewrite fb_with_fb.
  unfold WIDTH, HEIGHT in *.
  destruct (Z.eqb_spec y' y) as [->|Hne].
  - rewrite list_lookup_total_insert_eq by lia.
    rewrite andb_true_r.
    destruct (on =? 0); cbn [negb].
    + rewrite Z.land_spec, not32_testbit, Z.pow2_bits_eqb by lia.
      rewrite (Z.eqb_sym x x').
      destruct (Z.eqb_spec x' x) as [->|Hxne]; cbn [negb].
      * now rewrite andb_false_r, andb_false_r.
      * destruct (Z.ltb_spec x' 32); [|lia]. now rewrite !andb_true_r.
    + rewrite Z.lor_spec, Z.pow2_bits_eqb by lia.
      rewrite (Z.eqb_sym x x').
      destruct (Z.eqb_spec x' x); [apply orb_true_r|apply orb_false_r].
  - rewrite andb_false_r.
    rewrite list_lookup_total_insert_ne by lia. reflexivity.
Qed.

(** X2.  Reading a pixel after [fb_set_pixel]: the written pixel reads as
    the [on] argument (non-zero is on), every other in-bounds pixel reads as
    before. *)
Theorem pixel_after_fb_set_pixel (x y on x' y' : Z) (s : state) :
  0 <= x < WIDTH -> 0 <= y < HEIGHT ->
  0 <= x' < WIDTH -> 0 <= y' < HEIGHT ->
  length (fb s) = Z.to_nat HEIGHT ->
  pixel (fb (snd (fb_set_pixel x y on s))) x' y'
  = if (x' =? x) && (y' =? y) then negb (on =? 0) else pixel (fb s) x' y'.
Proof. apply pixel_fb_set_pixel. Qed.

Lemma pixel_after_fb_set_pixel_witness :
  pixel (fb (snd (fb_set_pixel 5 2 1 power_on))) 5 2 = true /\
  pixel (fb (snd (fb_set_pixel 0 0 0 corner_lit))) 0 0 = false.
Proof.
  split.
  - apply (pixel_after_fb_set_pixel 5 2 1 5 2 power_on);
      (unfold WIDTH; lia) || (unfold HEIGHT; lia) || reflexivity.
  - apply (pixel_after_fb_set_pixel 0 0 0 0 0 corner_lit);
      (unfold WIDTH; lia) || (unfold HEIGHT; lia) || reflexivity.
Defined.

(** ** What a run of writes leaves behind *)

(** Either all frames went out and nothing was reported, or the first [k]
    frames went out ([k >= 1]), the last of them short, with one [perror]
    line. *)
Lemma transmit_effect (spi_reply : bus) (txs : list (list Z)) : forall s,
  transmit spi_reply txs s = (0, with_spi_log (spi_log s ++ txs) s) \/
  exists k, (1 <= k <= length txs)%nat /\
    transmit spi_reply txs s
    = (-1, with_stderr_log (stderr_log s ++ ["spi write"%string])
             (with_spi_log (spi_log s ++ take k txs) s)).
Proof.
  induction txs as [|tx rest IH]; intros s.
  - left. cbn. unfold ret. now rewrite app_nil_r, with_spi_log_id.
  - rewrite transmit_cons.
    destruct (spi_reply (spi_log s) tx =? sizeof_tx).
    + destruct (IH (with_spi_log (spi_log s ++ [tx]) s)) as [Hok|(k & Hk & Hshort)].
      * left. rewrite Hok. cbn. now rewrite <- app_assoc.
      * right. exists (S k). split; [cbn; lia|].
        rewrite Hshort. cbn. now rewrite <- app_assoc.
    + right. exists 1%nat. split; [cbn; lia|]. reflexivity.
Qed.

Lemma show_cursor_eq (spi_reply : bus) (s : state) :
  show_cursor spi_reply s =
    let s1 := snd (fb_clear s) in
    let s2 := snd (fb_set_pixel (cur_light_x s1) (cur_light_y s1) 1 s1) in
    ((if fst (fb_flush spi_reply s2) <? 0 then 1 else 0),
     snd (fb_flush spi_reply s2)).
Proof.
  unfold show_cursor, bind, gets. cbn [fb_clear modify snd].
  destruct (fb_set_pixel _ _ 1 _) as [[] s2]. cbn [snd].
  destruct (fb_flush spi_reply s2) as [r s3]. cbn [fst snd].
  now destruct (r <? 0).
Qed.

Lemma fb_flush_fb (spi_reply : bus) (s : state) :
  fb (snd (fb_flush spi_reply s)) = fb s.
Proof. rewrite fb_flush_transmit. apply transmit_globals. Qed.

Lemma next_light_wf (spi_reply : bus) (s : state) :
  fb_wf (fb s) -> fb_wf (fb (snd (next_light spi_reply s))).
Proof.
  intros Hwf. rewrite next_light_eq. cbn zeta.
  assert (Hshow : forall t, fb_wf (fb t) -> fb_wf (fb (snd (show_cursor spi_reply t)))).
  { intros t Ht. rewrite show_cursor_eq. cbn [snd]. rewrite fb_flush_fb.
    apply fb_set_pixel_wf, fb_clear_wf, Ht. }
  destruct (cur_light_x s + 1 >? HEIGHT).
  - destruct (cur_light_y s + 1 >? HEIGHT); [exact Hwf|]. now apply Hshow.
  - now apply Hshow.
Qed.

Lemma calls_wf (spi_reply : bus) (n : nat) : forall s,
  fb_wf (fb s) -> fb_wf (fb (calls spi_reply n s)).
Proof.
  induction n as [|n IH]; intros s Hwf; [exact Hwf|].
  cbn [calls]. apply IH. now apply next_light_wf.
Qed.

(** X3.  The framebuffer invariant ([HEIGHT] rows, each a 32-bit value) is
    kept by [fb_clear], by [fb_set_pixel] for all arguments, by [fb_flush]
    and by any number of [next_light] calls, whatever the bus does. *)
Theorem fb_wf_preserved (spi_reply : bus) (s : state) :
  fb_wf (fb s) ->
  fb_wf (fb (snd (fb_clear s))) /\
  (forall x y on, fb_wf (fb (snd (fb_set_pixel x y on s)))) /\
  fb_wf (fb (snd (fb_flush spi_reply s))) /\
  (forall n, fb_wf (fb (calls spi_reply n s))).
Proof.
  intros Hwf. split; [now apply fb_clear_wf|].
  split; [intros; now apply fb_set_pixel_wf|].
  split; [now rewrite fb_flush_fb|].
  intros n. now apply calls_wf.
Qed.

Lemma fb_wf_preserved_witness :
  fb_wf (fb (snd (fb_clear corner_lit))) /\
  (forall x y on, fb_wf (fb (snd (fb_set_pixel x y on corner_lit)))) /\
  fb_wf (fb (snd (fb_flush (short_from 2) corner_lit))) /\
  (forall n, fb_wf (fb (calls (short_from 2) n corner_lit))).
Proof.
  apply (fb_wf_preserved (short_from 2) corner_lit).
  split; [reflexivity|]. repeat constructor; lia.
Defined.

(** ** Framebuffer: pixel writes commute *)

Lemma row_update_comm v x1 on1 x2 on2 :
  0 <= x1 < 32 -> 0 <= x2 < 32 -> x1 <> x2 ->
  (if on2 =? 0
   then Z.land (if on1 =? 0 then Z.land v (not32 (2 ^ x1)) else Z.lor v (2 ^ x1))
               (not32 (2 ^ x2))
   else Z.lor (if on1 =? 0 then Z.land v (not32 (2 ^ x1)) else Z.lor v (2 ^ x1))
              (2 ^ x2))
  = (if on1 =? 0
     then Z.land (if on2 =? 0 then Z.land v (not32 (2 ^ x2)) else Z.lor v (2 ^ x2))
                 (not32 (2 ^ x1))
     else Z.lor (if on2 =? 0 then Z.land v (not32 (2 ^ x2)) else Z.lor v (2 ^ x2))
                (2 ^ x1)).
Proof.
  intros H1 H2 Hne. apply Z.bits_inj'; intros n Hn.
  destruct (on1 =? 0), (on2 =? 0);
    repeat first [ rewrite Z.land_spec | rewrite Z.lor_spec
                 | rewrite not32_testbit by lia | rewrite Z.pow2_bits_eqb by lia ];
    destruct (Z.eqb_spec x1 n), (Z.eqb_spec x2 n); try lia;
    destruct (Z.ltb_spec n 32); try lia;
    destruct (Z.testbit v n); reflexivity.
Qed.

(** X4.  Two [fb_set_pixel] calls on different pixels can be swapped: the
    resulting state is the same, for all coordinates (in bounds or not) and
    both [on] arguments. *)
Theorem fb_set_pixel_commute (x1 y1 on1 x2 y2 on2 : Z) (s : state) :
  x1 <> x2 \/ y1 <> y2 ->
  snd (fb_set_pixel x2 y2 on2 (snd (fb_set_pixel x1 y1 on1 s)))
  = snd (fb_set_pixel x1 y1 on1 (snd (fb_set_pixel x2 y2 on2 s))).
Proof.
  intros Hne.
  destruct (Z.lt_ge_cases x1 0); [|destruct (Z.lt_ge_cases x1 WIDTH);
    [destruct (Z.lt_ge_cases y1 0); [|destruct (Z.lt_ge_cases y1 HEIGHT)]|]];
    try (rewrite !(fb_set_pixel_out_of_range x1 y1) by lia; reflexivity).
  destruct (Z.lt_ge_cases x2 0); [|destruct (Z.lt_ge_cases x2 WIDTH);
    [destruct (Z.lt_ge_cases y2 0); [|destruct (Z.lt_ge_cases y2 HEIGHT)]|]];
    try (rewrite !(fb_set_pixel_out_of_range x2 y2) by lia; reflexivity).
  rewrite !fb_set_pixel_in_bounds by lia. cbn [snd].
  rewrite !with_fb_twice, !fb_with_fb. f_equal.
  destruct (Z.eq_dec y1 y2) as [<-|Hy].
  - destruct (Nat.lt_ge_cases (Z.to_nat y1) (length (fb s))) as [Hin|Hout].
    + rewrite !list_lookup_total_insert_eq by assumption.
      rewrite !list_insert_insert_eq. f_equal.
      apply row_update_comm; unfold WIDTH in *; lia.
    + rewrite !(list_insert_ge (fb s)) by assumption. reflexivity.
  - assert (Hny : Z.to_nat y1 <> Z.to_nat y2) by lia.
    rewrite !list_lookup_total_insert_ne by lia.
    apply list_insert_insert_ne. lia.
Qed.

Lemma fb_set_pixel_commute_witness :
  snd (fb_set_pixel 3 0 0 (snd (fb_set_pixel 0 0 1 power_on)))
  = snd (fb_set_pixel 0 0 1 (snd (fb_set_pixel 3 0 0 power_on))).
Proof.
  apply (fb_set_pixel_commute 0 0 1 3 0 0 power_on). left. lia.
Defined.

(** ** Flush engine: what the device bytes hold *)

Lemma dev_byte_range row d : 0 <= dev_byte row d < 256.
Proof.
  rewrite dev_byte_segment. change 255 with (Z.ones 8).
  rewrite Z.land_ones by lia. apply Z.mod_pos_bound. lia.
Qed.

(** X5.  The byte [fb_flush] builds for device [d] is the row shifted right
    by [8*d] and cut to eight bits, for any row value; it is a [uint8_t]
    value.  So device [d] gets columns [8*d .. 8*d+7], column [8*d+k] in
    bit [k]. *)
Theorem dev_bytes_segments (row : Z) (d : nat) :
  (d < NUM_DEVICES)%nat ->
  dev_bytes row !! d = Some (Z.land (Z.shiftr row (8 * Z.of_nat d)) 255) /\
  0 <= Z.land (Z.shiftr row (8 * Z.of_nat d)) 255 < 256 /\
  (forall k, 0 <= k < 8 ->
     Z.testbit (Z.land (Z.shiftr row (8 * Z.of_nat d)) 255) k
     = Z.testbit row (8 * Z.of_nat d + k)).
Proof.
  intros Hd. unfold NUM_DEVICES in Hd.
  replace (8 * Z.of_nat d) with (Z.of_nat d * 8) by lia.
  rewrite <- dev_byte_segment. split; [|split].
  - rewrite dev_bytes_eq.
    destruct d as [|[|[|[|d]]]]; [reflexivity..|lia].
  - apply dev_byte_range.
  - intros k Hk. now apply dev_byte_testbit.
Qed.

Lemma dev_bytes_segments_witness :
  dev_bytes 0x00AB0000 !! 2%nat = Some 0xAB.
Proof.
  apply (dev_bytes_segments 0x00AB0000 2). unfold NUM_DEVICES. lia.
Defined.

(** X6.  The four device bytes of a 32-bit row give the row back: byte [d]
    is the [d]-th base-256 digit, so [fb_flush] sends every lit and unlit
    column of the row and two different rows never yield the same bytes. *)
Theorem dev_bytes_round_trip (row : Z) :
  0 <= row < 2 ^ 32 ->
  row_of_bytes (dev_bytes row) = row.
Proof.
  intros Hrow. unfold row_of_bytes. rewrite dev_bytes_eq.
  cbn [lookup_total list_lookup_total].
  rewrite !dev_byte_segment. cbn [Z.of_nat Z.mul Pos.of_succ_nat Pos.succ Pos.mul Pos.add].
  change 255 with (Z.ones 8). rewrite !Z.land_ones, !Z.shiftr_div_pow2 by lia.
  change (2 ^ 0) with 1. change (2 ^ 8) with 256.
  change (2 ^ 16) with 65536. change (2 ^ 24) with 16777216.
  change (2 ^ 32) with 4294967296 in Hrow.
  Z.div_mod_to_equations. lia.
Qed.

Lemma dev_bytes_round_trip_witness :
  row_of_bytes (dev_bytes 0x80000001) = 0x80000001.
Proof. apply (dev_bytes_round_trip 0x80000001). lia. Defined.

(** ** Register protocol: results and wire format *)

(** X7.  For a row index in [1,8], [max7219_send_row] makes exactly one bus
    write, of the frame with device 3's pair first; it returns [0] when the
    write reports [2*D] bytes, and otherwise returns [-1] after one
    [perror] line.  Nothing else in the state changes. *)
Theorem send_row_single_write (spi_reply : bus) (row : Z) (dev_data : list Z)
    (s : state) :
  1 <= row <= 8 ->
  let tx := [row; dev_data !!! 3%nat; row; dev_data !!! 2%nat;
             row; dev_data !!! 1%nat; row; dev_data !!! 0%nat] in
  max7219_send_row spi_reply row dev_data s
  = if spi_reply (spi_log s) tx =? 2 * Z.of_nat NUM_DEVICES
    then (0, with_spi_log (spi_log s ++ [tx]) s)
    else (-1, with_stderr_log (stderr_log s ++ ["spi write"%string])
               (with_spi_log (spi_log s ++ [tx]) s)).
Proof.
  intros Hrow tx. rewrite max7219_send_row_transmit by assumption.
  apply transmit_one.
Qed.

Lemma send_row_single_write_witness :
  max7219_send_row (short_from 0) 8 [1; 2; 3; 4] power_on
  = (-1, with_stderr_log ["spi write"%string]
           (with_spi_log [[8; 4; 8; 3; 8; 2; 8; 1]] power_on)).
Proof.
  apply (send_row_single_write (short_from 0) 8 [1; 2; 3; 4] power_on). lia.
Defined.

(** X8.  [max7219_init] stops at the first write the bus does not take
    whole: if that is frame [k] of its thirteen frames, frames [0..k] have
    been written and no later one, one [perror] line was printed, and the
    result is [-1]. *)
Theorem max7219_init_aborts (spi_reply : bus) (intensity : Z) (s : state)
    (k : nat) :
  let txs := init_frames (Z.min intensity 15) in
  (k < 13)%nat ->
  (forall j, (j < k)%nat ->
             taken spi_reply (spi_log s ++ take j txs) (txs !!! j)) ->
  ~ taken spi_reply (spi_log s ++ take k txs) (txs !!! k) ->
  max7219_init spi_reply intensity s
  = (-1, with_stderr_log (stderr_log s ++ ["spi write"%string])
           (with_spi_log (spi_log s ++ take (S k) txs) s)).
Proof.
  intros txs Hk Hok Hbad. rewrite max7219_init_transmit.
  now apply transmit_first_short.
Qed.

Lemma max7219_init_aborts_witness :
  max7219_init (short_from 3) 200 power_on
  = (-1, with_stderr_log ["spi write"%string]
           (with_spi_log
              [ [15; 0; 15; 0; 15; 0; 15; 0]; [9; 0; 9; 0; 9; 0; 9; 0];
                [11; 7; 11; 7; 11; 7; 11; 7]; [10; 15; 10; 15; 10; 15; 10; 15] ]
              power_on)).
Proof.
  apply (max7219_init_aborts (short_from 3) 200 power_on 3).
  - lia.
  - intros j Hj. destruct j as [|[|[|j]]]; [reflexivity..|lia].
  - intros H. unfold taken in H. vm_compute in H. discriminate H.
Defined.

Lemma fb_set_pixel_only_fb x y on s :
  snd (fb_set_pixel x y on s) = with_fb (fb (snd (fb_set_pixel x y on s))) s.
Proof.
  unfold fb_set_pixel.
  destruct ((x <? 0) || (x >=? WIDTH) || (y <? 0) || (y >=? HEIGHT)).
  - cbn. now rewrite with_fb_id.
  - unfold modify. now destruct (on =? 0).
Qed.

(** The state in which [show_cursor] flushes differs from the one it was
    called in by the framebuffer only. *)
Lemma show_cursor_flushed_state s :
  let s1 := snd (fb_clear s) in
  let s2 := snd (fb_set_pixel (cur_light_x s1) (cur_light_y s1) 1 s1) in
  s2 = with_fb (fb s2) s.
Proof. cbn zeta. now rewrite fb_set_pixel_only_fb at 1. Qed.

Lemma row_frame_ok digit dev_data :
  1 <= digit <= 8 -> length dev_data = NUM_DEVICES ->
  Forall (fun b => 0 <= b < 256) dev_data ->
  frame_ok (row_frame digit dev_data).
Proof.
  intros Hd Hlen Hb. unfold NUM_DEVICES in Hlen.
  do 4 (destruct dev_data as [|? dev_data]; [discriminate Hlen|]).
  destruct dev_data; [|discriminate Hlen].
  apply Forall_cons in Hb as [? Hb]. apply Forall_cons in Hb as [? Hb].
  apply Forall_cons in Hb as [? Hb]. apply Forall_cons in Hb as [? Hb].
  split; [reflexivity|]. unfold row_frame.
  cbn [lookup_total list_lookup_total].
  repeat (apply Forall_cons_2; [lia|]). apply Forall_nil_2.
Qed.

Lemma broadcast_frame_ok reg data :
  0 <= reg < 256 -> 0 <= data < 256 -> frame_ok (broadcast_frame reg data).
Proof.
  intros Hr Hd. split; [reflexivity|]. cbn.
  repeat (apply Forall_cons_2; [lia|]). apply Forall_nil_2.
Qed.

Lemma flush_frames_ok f :
  Forall frame_ok (map (flush_frame f) (upto (Z.to_nat HEIGHT))).
Proof.
  apply Forall_map, Forall_forall. intros y Hy.
  apply list_elem_of_In in Hy. change (In y (seq 0 8)) in Hy. apply in_seq in Hy.
  apply row_frame_ok; [lia|reflexivity|].
  rewrite dev_bytes_eq.
  repeat (apply Forall_cons_2; [apply dev_byte_range|]). apply Forall_nil_2.
Qed.

Lemma init_frames_ok level :
  0 <= level < 256 -> Forall frame_ok (init_frames level).
Proof.
  intros Hl. unfold init_frames. apply Forall_app. split.
  - repeat (apply Forall_cons_2;
            [apply broadcast_frame_ok; unfold REG_DISPLAYTEST, REG_DECODE,
               REG_SCANLIMIT, REG_INTENSITY, REG_SHUTDOWN; lia|]).
    apply Forall_nil_2.
  - apply Forall_map, Forall_forall. intros r Hr.
    apply list_elem_of_In in Hr. cbn in Hr.
    apply row_frame_ok; [lia|reflexivity|]. cbn.
    repeat (apply Forall_cons_2; [lia|]). apply Forall_nil_2.
Qed.

Lemma transmit_frames_ok (spi_reply : bus) txs s :
  Forall frame_ok (spi_log s) -> Forall frame_ok txs ->
  Forall frame_ok (spi_log (snd (transmit spi_reply txs s))).
Proof.
  intros Hlog Htxs.
  destruct (transmit_effect spi_reply txs s) as [H|(k & _ & H)]; rewrite H; cbn.
  - apply Forall_app; auto.
  - apply Forall_app. split; [exact Hlog|]. now apply Forall_take.
Qed.

Lemma next_light_frames_ok (spi_reply : bus) s :
  Forall frame_ok (spi_log s) ->
  Forall frame_ok (spi_log (snd (next_light spi_reply s))).
Proof.
  intros Hlog. rewrite next_light_eq. cbn zeta.
  assert (Hshow : forall t, Forall frame_ok (spi_log t) ->
            Forall frame_ok (spi_log (snd (show_cursor spi_reply t)))).
  { intros t Ht. rewrite show_cursor_eq. cbn [snd].
    rewrite fb_flush_transmit. apply transmit_frames_ok; [|apply flush_frames_ok].
    rewrite show_cursor_flushed_state. exact Ht. }
  destruct (cur_light_x s + 1 >? HEIGHT).
  - destruct (cur_light_y s + 1 >? HEIGHT); [exact Hlog|]. now apply Hshow.
  - now apply Hshow.
Qed.

(** X9.  Every buffer the driver hands to [write] is a well-formed wire
    transaction, [2*D] bytes each in [0,256): if this holds of the log
    before, it holds after [max7219_init] (for a [uint8_t] intensity),
    after [fb_flush] on any framebuffer contents, and after any number of
    [next_light] calls, whatever the bus replies. *)
Theorem wire_frames_well_formed (spi_reply : bus) (intensity : Z) (s : state)
    (n : nat) :
  Forall frame_ok (spi_log s) ->
  0 <= intensity < 256 ->
  Forall frame_ok (spi_log (snd (max7219_init spi_reply intensity s))) /\
  Forall frame_ok (spi_log (snd (fb_flush spi_reply s))) /\
  Forall frame_ok (spi_log (calls spi_reply n s)).
Proof.
  intros Hlog Hi. split; [|split].
  - rewrite max7219_init_transmit.
    apply transmit_frames_ok; [exact Hlog|]. apply init_frames_ok. lia.
  - rewrite fb_flush_transmit.
    apply transmit_frames_ok; [exact Hlog|apply flush_frames_ok].
  - revert s Hlog. induction n as [|n IH]; intros s Hlog; [exact Hlog|].
    cbn [calls]. apply IH. now apply next_light_frames_ok.
Qed.

Lemma wire_frames_well_formed_witness :
  Forall frame_ok (spi_log (snd (max7219_init (short_from 7) 255 corner_lit))) /\
  Forall frame_ok (spi_log (snd (fb_flush (short_from 7) corner_lit))) /\
  Forall frame_ok (spi_log (calls (short_from 7) 5 corner_lit)).
Proof.
  apply (wire_frames_well_formed (short_from 7) 255 corner_lit 5).
  - constructor.
  - lia.
Defined.

(** X10.  [fb_flush] never changes the framebuffer or the cursors.  It
    returns [0] after writing the eight row frames and printing nothing, or
    [-1] after writing the first [k] of them (1 <= k <= 8) and printing
    exactly one [perror] line. *)
Theorem fb_flush_effect (spi_reply : bus) (s : state) :
  let txs := map (fun y => row_frame (Z.of_nat y + 1) (dev_bytes (fb s !!! y)))
                 [0; 1; 2; 3; 4; 5; 6; 7]%nat in
  let r := fst (fb_flush spi_reply s) in
  let s' := snd (fb_flush spi_reply s) in
  fb s' = fb s /\ cur_light_x s' = cur_light_x s /\ cur_light_y s' = cur_light_y s /\
  ((r = 0 /\ spi_log s' = spi_log s ++ txs /\ stderr_log s' = stderr_log s) \/
   (r = -1 /\
    (exists k, (1 <= k <= 8)%nat /\ spi_log s' = spi_log s ++ take k txs) /\
    stderr_log s' = stderr_log s ++ ["spi write"%string])).
Proof.
  cbn zeta. rewrite fb_flush_transmit.
  destruct (transmit_globals spi_reply
              (map (flush_frame (fb s)) (upto (Z.to_nat HEIGHT))) s) as (Hf & Hx & Hy).
  split; [exact Hf|]. split; [exact Hx|]. split; [exact Hy|].
  destruct (transmit_effect spi_reply
              (map (flush_frame (fb s)) (upto (Z.to_nat HEIGHT))) s)
    as [H|(k & Hk & H)]; rewrite H; cbn [fst snd].
  - left. repeat split; reflexivity.
  - right. split; [reflexivity|]. split; [|reflexivity].
    exists k. split; [exact Hk|reflexivity].
Qed.

(** ** Animation: what each call displays *)

Lemma calls_S_r (spi_reply : bus) (n : nat) : forall s,
  calls spi_reply (S n) s = snd (next_light spi_reply (calls spi_reply n s)).
Proof.
  induction n as [|n IH]; intros s; [reflexivity|].
  change (calls spi_reply (S (S n)) s)
    with (calls spi_reply (S n) (snd (next_light spi_reply s))).
  now rewrite IH.
Qed.

Lemma show_cursor_fb (spi_reply : bus) (s : state) :
  fb (snd (show_cursor spi_reply s))
  = fb (snd (fb_set_pixel (cur_light_x s) (cur_light_y s) 1 (snd (fb_clear s)))).
Proof. rewrite show_cursor_eq. cbn [snd]. now rewrite fb_flush_fb. Qed.

(** After [show_cursor] the framebuffer holds the cursor pixel and nothing
    else (nothing at all when the cursor is out of bounds). *)
Lemma show_cursor_pixel (spi_reply : bus) (s : state) (px py : Z) :
  length (fb s) = Z.to_nat HEIGHT ->
  0 <= px < WIDTH -> 0 <= py < HEIGHT ->
  pixel (fb (snd (show_cursor spi_reply s))) px py
  = (px =? cur_light_x s) && (py =? cur_light_y s).
Proof.
  intros Hlen Hpx Hpy. rewrite show_cursor_fb, fb_clear_zeroes by assumption.
  set (cx := cur_light_x s). set (cy := cur_light_y s).
  destruct (Z.lt_ge_cases cx 0) as [?|Hx0]; [|destruct (Z.lt_ge_cases cx WIDTH) as [Hxw|?];
    [destruct (Z.lt_ge_cases cy 0) as [?|Hy0]; [|destruct (Z.lt_ge_cases cy HEIGHT) as [Hyh|?]]|]].
  1,2,4,5: rewrite fb_set_pixel_out_of_range by lia; cbn [snd];
    rewrite fb_with_fb, pixel_blank by assumption; symmetry;
    apply andb_false_iff; rewrite !Z.eqb_neq; lia.
  rewrite pixel_fb_set_pixel by (assumption || lia || reflexivity).
  rewrite fb_with_fb, pixel_blank by assumption.
  now destruct ((px =? cx) && (py =? cy)).
Qed.

Lemma next_light_shows_cursor_aux (spi_reply : bus) (s : state) (px py : Z) :
  length (fb s) = Z.to_nat HEIGHT ->
  0 <= px < WIDTH -> 0 <= py < HEIGHT ->
  ~ (cur_light_x s + 1 > HEIGHT /\ cur_light_y s + 1 > HEIGHT) ->
  pixel (fb (snd (next_light spi_reply s))) px py
  = (px =? cur_light_x (snd (next_light spi_reply s)))
    && (py =? cur_light_y (snd (next_light spi_reply s))).
Proof.
  intros Hlen Hpx Hpy Hgo. set (s' := snd (next_light spi_reply s)).
  destruct (next_light_step spi_reply s) as (Hx & Hy & _).
  fold s' in Hx, Hy. rewrite Hx, Hy. unfold s'. rewrite next_light_eq. cbn zeta.
  destruct (Z.gtb_spec (cur_light_x s + 1) HEIGHT) as [Hxg|Hxg].
  - destruct (Z.gtb_spec (cur_light_y s + 1) HEIGHT) as [Hyg|Hyg]; [lia|].
    now rewrite show_cursor_pixel.
  - now rewrite show_cursor_pixel.
Qed.

(** X11.  One [next_light] call that does not stop (not both new cursors
    beyond [HEIGHT]) leaves on the framebuffer exactly the pixel under the
    new cursor, or no pixel when that cursor is outside the display; this
    holds whether or not the flush that follows succeeds. *)
Theorem next_light_shows_cursor (spi_reply : bus) (s : state) (px py : Z) :
  length (fb s) = Z.to_nat HEIGHT ->
  0 <= px < WIDTH -> 0 <= py < HEIGHT ->
  ~ (cur_light_x s + 1 > HEIGHT /\ cur_light_y s + 1 > HEIGHT) ->
  let s' := snd (next_light spi_reply s) in
  pixel (fb s') px py = (px =? cur_light_x s') && (py =? cur_light_y s').
Proof. intros. now apply next_light_shows_cursor_aux. Qed.

Lemma next_light_shows_cursor_witness :
  pixel (fb (snd (next_light (short_from 0) corner_lit))) 1 0 = true /\
  pixel (fb (snd (next_light (short_from 0) corner_lit))) 0 0 = false.
Proof.
  split.
  - apply (next_light_shows_cursor (short_from 0) corner_lit 1 0);
      [reflexivity | unfold WIDTH; lia | unfold HEIGHT; lia
      | unfold HEIGHT; cbn; lia].
  - apply (next_light_shows_cursor (short_from 0) corner_lit 0 0);
      [reflexivity | unfold WIDTH; lia | unfold HEIGHT; lia
      | unfold HEIGHT; cbn; lia].
Defined.

Lemma calls_path (spi_reply : bus) (s : state) (n : nat) :
  let s_n := calls spi_reply n (with_x 0 (with_y 0 s)) in
  cur_light_x s_n = Z.of_nat n /\
  cur_light_y s_n = Z.max 0 (Z.of_nat n - HEIGHT).
Proof.
  cbn zeta. induction n as [|n [IHx IHy]]; [split; reflexivity|].
  rewrite calls_S_r.
  destruct (next_light_step spi_reply (calls spi_reply n (with_x 0 (with_y 0 s))))
    as (Hx & Hy & _).
  rewrite Hx, Hy, IHx, IHy. unfold HEIGHT. split; [lia|].
  destruct (Z.gtb_spec (Z.of_nat n + 1) 8); lia.
Qed.

(** X12.  The animation path.  Started with both cursors at 0 on a
    well-formed framebuffer, after the [n]-th [next_light] call (n >= 1) the
    cursor is at [(n, max 0 (n-8))] and the framebuffer shows exactly that
    pixel when it is on the display: columns 1..8 of row 0, then the
    diagonal (9,1) .. (15,7); from the 16th call on nothing is lit.
    Column 0 is never lit. *)
Theorem animation_path (spi_reply : bus) (s : state) (n : nat) (px py : Z) :
  fb_wf (fb s) ->
  (1 <= n)%nat ->
  0 <= px < WIDTH -> 0 <= py < HEIGHT ->
  let s_n := calls spi_reply n (with_x 0 (with_y 0 s)) in
  cur_light_x s_n = Z.of_nat n /\
  cur_light_y s_n = Z.max 0 (Z.of_nat n - HEIGHT) /\
  pixel (fb s_n) px py = (px =? Z.of_nat n) && (py =? Z.max 0 (Z.of_nat n - HEIGHT)).
Proof.
  intros Hwf Hn Hpx Hpy s_n.
  destruct (calls_path spi_reply s n) as [Hx Hy]. fold s_n in Hx, Hy.
  split; [exact Hx|]. split; [exact Hy|].
  unfold s_n. clear s_n Hx Hy. induction n as [|n IH]; [lia|].
  rewrite calls_S_r.
  set (t := calls spi_reply n (with_x 0 (with_y 0 s))) in *.
  destruct (calls_path spi_reply s n) as [Hx Hy]. fold t in Hx, Hy.
  assert (Hlen : length (fb t) = Z.to_nat HEIGHT)
    by (apply (calls_wf spi_reply n (with_x 0 (with_y 0 s))); exact Hwf).
  destruct (Z_lt_le_dec (Z.of_nat n) 16) as [Hlt|Hge].
  - rewrite next_light_shows_cursor_aux by (assumption || (rewrite Hx, Hy; unfold HEIGHT; lia)).
    destruct (next_light_step spi_reply t) as (Hx' & Hy' & _).
    rewrite Hx', Hy', Hx, Hy. unfold HEIGHT.
    rewrite Nat2Z.inj_succ. unfold Z.succ.
    destruct (Z.gtb_spec (Z.of_nat n + 1) 8); f_equal; f_equal; lia.
  - rewrite next_light_eq. cbn zeta. rewrite Hx, Hy. unfold HEIGHT in *.
    rewrite Nat2Z.inj_succ. unfold Z.succ.
    destruct (Z.gtb_spec (Z.of_nat n + 1) 8); [|lia].
    destruct (Z.gtb_spec (Z.max 0 (Z.of_nat n - 8) + 1) 8); [|lia].
    cbn [snd fb with_x with_y].
    change (fb (with_y _ (with_x _ t))) with (fb t).
    rewrite IH by lia.
    transitivity false; [|symmetry]; apply andb_false_iff; right;
      apply Z.eqb_neq; lia.
Qed.

Lemma animation_path_witness :
  cur_light_x (calls (short_from 0) 10 (with_x 0 (with_y 0 power_on))) = 10 /\
  cur_light_y (calls (short_from 0) 10 (with_x 0 (with_y 0 power_on))) = 2 /\
  pixel (fb (calls (short_from 0) 10 (with_x 0 (with_y 0 power_on)))) 10 2 = true.
Proof.
  apply (animation_path (short_from 0) power_on 10 10 2);
    [exact power_on_wf | lia | unfold WIDTH; lia | unfold HEIGHT; lia].
Defined.

(** ** Animation: a bus that takes every frame *)

Section GoodBus.

Variable spi_reply : bus.
Hypothesis Hgood : forall log tx, length tx = (2 * NUM_DEVICES)%nat ->
                                  taken spi_reply log tx.

Lemma good_bus_transmit txs s :
  Forall frame_ok txs ->
  transmit spi_reply txs s = (0, with_spi_log (spi_log s ++ txs) s).
Proof.
  intros Hok. apply transmit_all_taken. intros j Hj. apply Hgood.
  destruct (lookup_lt_is_Some_2 txs j Hj) as [tx Htx].
  rewrite (list_lookup_total_correct _ _ _ Htx).
  rewrite Forall_lookup in Hok. exact (proj1 (Hok _ _ Htx)).
Qed.

Lemma good_bus_show_cursor s :
  fst (show_cursor spi_reply s) = 0 /\
  length (spi_log (snd (show_cursor spi_reply s))) = (length (spi_log s) + 8)%nat.
Proof.
  rewrite show_cursor_eq. cbn zeta. rewrite fb_flush_transmit.
  rewrite good_bus_transmit by apply flush_frames_ok. cbn [fst snd].
  split; [reflexivity|].
  rewrite show_cursor_flushed_state. cbn. rewrite length_app. reflexivity.
Qed.

Lemma good_bus_main_loop fuel : forall s,
  (remaining s <= fuel)%nat ->
  main_loop spi_reply fuel s
  = (Some (remaining s), calls spi_reply (remaining s) s) /\
  length (spi_log (calls spi_reply (remaining s) s))
  = (length (spi_log s) + 8 * (remaining s - 1))%nat.
Proof.
  induction fuel as [|fuel IH]; intros s Hfuel.
  - unfold remaining in Hfuel. lia.
  - rewrite main_loop_S. cbn zeta.
    destruct (next_light_step spi_reply s) as (Hx & Hy & _).
    assert (Hnl := next_light_eq spi_reply s). cbn zeta in Hnl.
    destruct (Z.gtb_spec (cur_light_x s + 1) HEIGHT) as [Hxg|Hxg];
      [destruct (Z.gtb_spec (cur_light_y s + 1) HEIGHT) as [Hyg|Hyg]|].
    + (* both cursors beyond HEIGHT: the call stops the loop *)
      assert (Hr : remaining s = 1%nat) by (unfold remaining, HEIGHT in *; lia).
      rewrite Hr. cbn [calls]. rewrite Hnl. cbn [fst snd].
      change (1 =? 0) with false. cbn iota. split; [reflexivity|].
      change (spi_log (with_y (cur_light_y s + 1) (with_x (cur_light_x s + 1) s)))
        with (spi_log s).
      lia.
    + destruct (good_bus_show_cursor
                  (with_y (cur_light_y s + 1) (with_x (cur_light_x s + 1) s)))
        as [H0 Hlog].
      rewrite <- Hnl in H0, Hlog.
      assert (Hr : remaining s = S (remaining (snd (next_light spi_reply s))))
        by (unfold remaining; rewrite Hx, Hy; unfold HEIGHT in *; lia).
      destruct (IH (snd (next_light spi_reply s)) ltac:(lia)) as [Hloop Hlen].
      rewrite H0, Hloop, Hr. cbn [Z.eqb fst snd option_map calls].
      split; [reflexivity|]. rewrite Hlen, Hlog. cbn [spi_log with_x with_y].
      assert (1 <= remaining (snd (next_light spi_reply s)))%nat
        by (unfold remaining; lia).
      lia.
    + destruct (good_bus_show_cursor (with_x (cur_light_x s + 1) s)) as [H0 Hlog].
      rewrite <- Hnl in H0, Hlog.
      assert (Hr : remaining s = S (remaining (snd (next_light spi_reply s))))
        by (unfold remaining; rewrite Hx, Hy; unfold HEIGHT in *; lia).
      destruct (IH (snd (next_light spi_reply s)) ltac:(lia)) as [Hloop Hlen].
      rewrite H0, Hloop, Hr. cbn [Z.eqb fst snd option_map calls].
      split; [reflexivity|]. rewrite Hlen, Hlog. cbn [spi_log with_x with_y].
      assert (1 <= remaining (snd (next_light spi_reply s)))%nat
        by (unfold remaining; lia).
      lia.
Qed.

End GoodBus.

(** A call that finds both cursors at or beyond [HEIGHT] writes nothing. *)
Lemma next_light_stop_log (spi_reply : bus) (s : state) :
  cur_light_x s + 1 > HEIGHT -> cur_light_y s + 1 > HEIGHT ->
  spi_log (snd (next_light spi_reply s)) = spi_log s.
Proof.
  intros Hx Hy. rewrite next_light_eq. cbn zeta.
  destruct (Z.gtb_spec (cur_light_x s + 1) HEIGHT); [|lia].
  destruct (Z.gtb_spec (cur_light_y s + 1) HEIGHT); [|lia].
  reflexivity.
Qed.

(** X13.  On a bus that takes every [2*D]-byte frame whole, the loop of
    [main] started with both cursors at 0 makes exactly 17 [next_light]
    calls: sixteen that flush (8 row frames each, 128 frames in all) and a
    last one that stops the loop without writing. *)
Theorem main_loop_full_run (spi_reply : bus) (s : state) :
  (forall log tx, length tx = (2 * NUM_DEVICES)%nat -> taken spi_reply log tx) ->
  let start := with_x 0 (with_y 0 s) in
  main_loop spi_reply 17 start = (Some 17%nat, calls spi_reply 17 start) /\
  length (spi_log (calls spi_reply 17 start)) = (length (spi_log s) + 128)%nat /\
  spi_log (calls spi_reply 17 start) = spi_log (calls spi_reply 16 start).
Proof.
  intros Hgood start.
  assert (Hr : remaining start = 17%nat) by reflexivity.
  destruct (good_bus_main_loop spi_reply Hgood 17 start) as [Hloop Hlen];
    [rewrite Hr; lia|].
  rewrite Hr in Hloop, Hlen.
  split; [exact Hloop|]. split; [exact Hlen|].
  rewrite (calls_S_r spi_reply 16 start).
  destruct (calls_path spi_reply s 16) as [Hx Hy]. fold start in Hx, Hy.
  apply next_light_stop_log; [rewrite Hx|rewrite Hy]; unfold HEIGHT; lia.
Qed.

Lemma full_bus_good log tx :
  length tx = (2 * NUM_DEVICES)%nat -> taken full_bus log tx.
Proof. intros H. unfold taken, full_bus. now rewrite H. Qed.

Lemma main_loop_full_run_witness :
  main_loop full_bus 17 (with_x 0 (with_y 0 corner_lit))
  = (Some 17%nat, calls full_bus 17 (with_x 0 (with_y 0 corner_lit))) /\
  length (spi_log (calls full_bus 17 (with_x 0 (with_y 0 corner_lit))))
  = (length (spi_log corner_lit) + 128)%nat /\
  spi_log (calls full_bus 17 (with_x 0 (with_y 0 corner_lit)))
  = spi_log (calls full_bus 16 (with_x 0 (with_y 0 corner_lit))).
Proof.
  apply (main_loop_full_run full_bus corner_lit). exact full_bus_good.
Defined.

(** * The process: bring-up, animation, teardown *)

Section LifecycleFacts.

Variable os_reply : os.
Variable spi_reply : bus.

(** [spi_init] written out on a process. *)
Lemma spi_init_eq p :
  let c0 := sys_open SPI_DEV in
  let fd := os_reply (sys_log p) c0 in
  let c1 := sys_ioctl fd SPI_IOC_WR_MODE SPI_MODE_0 in
  let c2 := sys_ioctl fd SPI_IOC_WR_BITS_PER_WORD 8 in
  let c3 := sys_ioctl fd SPI_IOC_WR_MAX_SPEED_HZ SPI_HZ in
  let log := sys_log p in
  let failed msg k :=
    (-1, mkProcess (with_stderr_log (stderr_log (core p) ++ [msg]) (core p)) fd
           (log ++ take k [c0; c1; c2; c3])) in
  spi_init os_reply p =
    if fd <? 0 then failed "open spidev"%string 1%nat
    else if os_reply (log ++ [c0]) c1 <? 0 then failed "SPI_IOC_WR_MODE"%string 2%nat
    else if os_reply (log ++ [c0; c1]) c2 <? 0
         then failed "SPI_IOC_WR_BITS_PER_WORD"%string 3%nat
    else if os_reply (log ++ [c0; c1; c2]) c3 <? 0
         then failed "SPI_IOC_WR_MAX_SPEED_HZ"%string 4%nat
    else (0, mkProcess (core p) fd (log ++ [c0; c1; c2; c3])).
Proof.
  cbn zeta. unfold spi_init, bindP, sys, set_spi_fd.
  cbn [core spi_fd sys_log].
  destruct (os_reply (sys_log p) (sys_open SPI_DEV) <? 0); [reflexivity|].
  cbn [core spi_fd sys_log]. rewrite <- !app_assoc. cbn [app].
  destruct (os_reply _ (sys_ioctl _ SPI_IOC_WR_MODE _) <? 0); [reflexivity|].
  cbn [core spi_fd sys_log]. rewrite <- !app_assoc. cbn [app].
  destruct (os_reply _ (sys_ioctl _ SPI_IOC_WR_BITS_PER_WORD _) <? 0); [reflexivity|].
  cbn [core spi_fd sys_log]. rewrite <- !app_assoc. cbn [app].
  destruct (os_reply _ (sys_ioctl _ SPI_IOC_WR_MAX_SPEED_HZ _) <? 0); [reflexivity|].
  cbn. destruct (core p). reflexivity.
Qed.

End LifecycleFacts.


Section LifecycleSteps.

Variable os_reply : os.
Variable spi_reply : bus.

Lemma spi_init_result p :
  fst (spi_init os_reply p) = 0 \/ fst (spi_init os_reply p) = -1.
Proof.
  rewrite spi_init_eq. cbn zeta.
  repeat (destruct (_ <? 0); [now right|]). now left.
Qed.

(** In the driver state [spi_init] touches [stderr_log] only. *)
Lemma spi_init_core p :
  exists e, core (snd (spi_init os_reply p)) = with_stderr_log e (core p).
Proof.
  rewrite spi_init_eq. cbn zeta.
  repeat (destruct (_ <? 0); [eexists; reflexivity|]).
  exists (stderr_log (core p)). cbn. now destruct (core p).
Qed.

Lemma max7219_init_globals intensity s :
  let s' := snd (max7219_init spi_reply intensity s) in
  fb s' = fb s /\ cur_light_x s' = cur_light_x s /\ cur_light_y s' = cur_light_y s.
Proof. cbn zeta. rewrite max7219_init_transmit. apply transmit_globals. Qed.

Lemma max7219_init_result intensity s :
  fst (max7219_init spi_reply intensity s) = 0 \/
  fst (max7219_init spi_reply intensity s) = -1.
Proof. rewrite max7219_init_transmit. apply transmit_result. Qed.

Lemma init_lights_eq p :
  init_lights os_reply spi_reply p =
    let p1 := snd (spi_init os_reply p) in
    if fst (spi_init os_reply p) <? 0 then (1, p1)
    else
      let i := max7219_init spi_reply 4 (core p1) in
      if fst i <? 0 then (1, mkProcess (snd i) (spi_fd p1) (sys_log p1))
      else (0, mkProcess (snd (fb_clear (snd i))) (spi_fd p1) (sys_log p1)).
Proof.
  unfold init_lights, bindP, lift. cbn zeta.
  destruct (spi_init os_reply p) as [r p1]. cbn [fst snd].
  destruct (r <? 0); [reflexivity|].
  destruct (max7219_init spi_reply 4 (core p1)) as [r2 s2]. cbn [fst snd].
  destruct (r2 <? 0); reflexivity.
Qed.

Lemma finish_lights_eq p :
  finish_lights os_reply spi_reply p =
    (tt, mkProcess (snd (fb_flush spi_reply (snd (fb_clear (core p)))))
           (spi_fd p) (sys_log p ++ [sys_close (spi_fd p)])).
Proof.
  unfold finish_lights, bindP, lift, sys. cbn [fb_clear modify fst snd].
  destruct (fb_flush spi_reply _) as [r s2]. reflexivity.
Qed.

Lemma main_loop_pos fuel : forall s k,
  fst (main_loop spi_reply fuel s) = Some k -> (1 <= k)%nat.
Proof.
  induction fuel as [|fuel IH]; intros s k; [discriminate|].
  rewrite main_loop_S. cbn zeta.
  destruct (fst (next_light spi_reply s) =? 0); cbn [fst].
  - destruct (fst (main_loop spi_reply fuel _)); [|discriminate].
    intros [= <-]. lia.
  - intros [= <-]. lia.
Qed.

(** The loop of [main] in the process is the loop on the driver state with
    one [usleep(30000)] after each call that returned 0. *)
Lemma main_while_eq fuel : forall p,
  let r := main_loop spi_reply fuel (core p) in
  main_while os_reply spi_reply fuel p =
    (match fst r with Some _ => true | None => false end,
     mkProcess (snd r) (spi_fd p)
       (sys_log p ++
        replicate (match fst r with Some k => k - 1 | None => fuel end)
                  (sys_usleep 30000))).
Proof.
  induction fuel as [|fuel IH]; intros p; cbn zeta.
  - cbn. rewrite app_nil_r. now destruct p.
  - rewrite main_loop_S. cbn zeta. cbn [main_while]. unfold bindP at 1, lift at 1.
    destruct (next_light spi_reply (core p)) as [r s1]. cbn [fst snd].
    destruct (r =? 0); [|cbn; rewrite app_nil_r; reflexivity].
    unfold bindP, sys. cbn [core spi_fd sys_log].
    rewrite IH. cbn zeta. cbn [core spi_fd sys_log fst snd].
    pose proof (main_loop_pos fuel s1) as Hpos.
    destruct (fst (main_loop spi_reply fuel s1)) as [k|]; cbn [option_map].
    + specialize (Hpos k eq_refl). f_equal. f_equal.
      rewrite <- app_assoc. f_equal.
      replace (S k - 1)%nat with (S (k - 1)) by lia. reflexivity.
    + f_equal. f_equal. rewrite <- app_assoc. reflexivity.
Qed.

End LifecycleSteps.




Section MainFacts.

Variable os_reply : os.
Variable spi_reply : bus.

Lemma init_lights_cursors p :
  let p' := snd (init_lights os_reply spi_reply p) in
  cur_light_x (core p') = cur_light_x (core p) /\
  cur_light_y (core p') = cur_light_y (core p).
Proof.
  cbn zeta. rewrite init_lights_eq. cbn zeta.
  destruct (spi_init_core os_reply p) as [e He].
  destruct (max7219_init_globals spi_reply 4 (core (snd (spi_init os_reply p))))
    as (_ & Hx & Hy).
  destruct (_ <? 0); [cbn [snd]; rewrite He; split; reflexivity|].
  destruct (_ <? 0); cbn [snd core fb_clear modify with_fb cur_light_x cur_light_y];
    rewrite Hx, Hy, He; split; reflexivity.
Qed.

Lemma main_eq fuel p :
  main os_reply spi_reply fuel p =
    let il := init_lights os_reply spi_reply p in
    if negb (fst il =? 0) then (Some 1, snd il)
    else
      let w := main_while os_reply spi_reply fuel (snd il) in
      if fst w then (Some 0, snd (finish_lights os_reply spi_reply (snd w)))
      else (None, snd w).
Proof.
  unfold main, bindP. cbn zeta.
  destruct (init_lights os_reply spi_reply p) as [r p1]. cbn [fst snd].
  destruct (negb (r =? 0)); [reflexivity|].
  destruct (main_while os_reply spi_reply fuel p1) as [[] p2]; cbn [fst snd];
    [|reflexivity].
  now destruct (finish_lights os_reply spi_reply p2) as [[] p3].
Qed.

End MainFacts.


(** ** Animation: what a call reports *)

Lemma show_cursor_effect (spi_reply : bus) (t : state) :
  let r := fst (show_cursor spi_reply t) in
  let t' := snd (show_cursor spi_reply t) in
  (r = 0 /\ stderr_log t' = stderr_log t /\
   length (spi_log t') = (length (spi_log t) + 8)%nat) \/
  (r = 1 /\ stderr_log t' = stderr_log t ++ ["spi write"%string] /\
   exists k, (1 <= k <= 8)%nat /\
             length (spi_log t') = (length (spi_log t) + k)%nat).
Proof.
  cbn zeta. rewrite show_cursor_eq. cbn zeta. rewrite fb_flush_transmit.
  set (s2 := snd (fb_set_pixel _ _ 1 (snd (fb_clear t)))).
  assert (Hs2 : stderr_log s2 = stderr_log t /\ spi_log s2 = spi_log t)
    by (unfold s2; rewrite show_cursor_flushed_state; split; reflexivity).
  destruct Hs2 as [He Hl].
  set (txs := map (flush_frame (fb s2)) (upto (Z.to_nat HEIGHT))).
  assert (Htxs : length txs = 8%nat) by reflexivity.
  destruct (transmit_effect spi_reply txs s2) as [H|(k & Hk & H)];
    rewrite H; cbn [fst snd spi_log stderr_log with_spi_log with_stderr_log].
  - left. rewrite He, Hl, length_app, Htxs. auto.
  - right. rewrite He, Hl, length_app, length_take, Htxs.
    split; [reflexivity|]. split; [reflexivity|].
    exists k. split; lia.
Qed.

(** X18.  [next_light] returns [1] without touching the framebuffer or the
    bus when both incremented cursors exceed [HEIGHT].  Otherwise it
    flushes: it returns [0] after eight more frames and no message, or [1]
    after between one and eight more frames and exactly one [perror]
    line. *)
Theorem next_light_report (spi_reply : bus) (s : state) :
  let r := fst (next_light spi_reply s) in
  let s' := snd (next_light spi_reply s) in
  (cur_light_x s + 1 > HEIGHT /\ cur_light_y s + 1 > HEIGHT ->
   next_light spi_reply s
   = (1, with_y (cur_light_y s + 1) (with_x (cur_light_x s + 1) s))) /\
  (~ (cur_light_x s + 1 > HEIGHT /\ cur_light_y s + 1 > HEIGHT) ->
   (r = 0 /\ stderr_log s' = stderr_log s /\
    length (spi_log s') = (length (spi_log s) + 8)%nat) \/
   (r = 1 /\ stderr_log s' = stderr_log s ++ ["spi write"%string] /\
    exists k, (1 <= k <= 8)%nat /\
              length (spi_log s') = (length (spi_log s) + k)%nat)).
Proof.
  cbn zeta. rewrite next_light_eq. cbn zeta. split.
  - intros [Hx Hy].
    destruct (Z.gtb_spec (cur_light_x s + 1) HEIGHT); [|lia].
    destruct (Z.gtb_spec (cur_light_y s + 1) HEIGHT); [|lia]. reflexivity.
  - intros Hgo.
    destruct (Z.gtb_spec (cur_light_x s + 1) HEIGHT);
      [destruct (Z.gtb_spec (cur_light_y s + 1) HEIGHT); [lia|]|].
    + apply (show_cursor_effect spi_reply
               (with_y (cur_light_y s + 1) (with_x (cur_light_x s + 1) s))).
    + apply (show_cursor_effect spi_reply (with_x (cur_light_x s + 1) s)).
Qed.




Lemma next_light_report_witness :
  next_light full_bus (with_x 8 (with_y 8 power_on))
  = (1, with_y 9 (with_x 9 (with_x 8 (with_y 8 power_on)))) /\
  fst (next_light full_bus power_on) = 0.
Proof.
  split.
  - apply (next_light_report full_bus (with_x 8 (with_y 8 power_on))).
    unfold HEIGHT. cbn. lia.
  - destruct (next_light_report full_bus power_on) as [_ H].
    destruct H as [(H0 & _)|(H1 & _)].
    + unfold HEIGHT. cbn. lia.
    + exact H0.
    + exfalso. vm_compute in H1. discriminate H1.
Defined.
